(** * kite: the Okada dislocation model ([src/models/disloc.py])

    A shallow embedding of the fault patch ([OkadaSource], [OkadaSegment]),
    the fault path ([OkadaPath]) with its editing operations, and the
    forward-model pipeline ([DislocProcessor.process]).

    Numbers.  The attributes are declared [Float.T]; a Python float is
    modelled as a real number with exact arithmetic, so rounding, overflow
    and NaN are outside the model.  What Python itself raises on floats is
    kept: [x / 0.0] raises [ZeroDivisionError], and [**] raises on a zero
    base with a negative exponent and on a negative base with a fractional
    exponent.  Indices are Python ints, modelled as [Z], with the negative
    wrap-around of list subscripts written out. *)

From Stdlib Require Import Reals Lra ZArith Lia.
From stdpp Require Import base list strings gmap.

Local Open Scope R_scope.

(** ** Exceptions and results *)

Inductive exn : Set :=
  | IndexError
  | ZeroDivisionError
  | ValueError
  | NameError.

Inductive result (A : Type) : Type :=
  | Ok (a : A)
  | Raise (e : exn).
Arguments Ok {A} a.
Arguments Raise {A} e.

Definition rbind {A B} (r : result A) (k : A -> result B) : result B :=
  match r with
  | Ok a => k a
  | Raise e => Raise e
  end.

Declare Scope result_scope.
Delimit Scope result_scope with res.
Notation "x <- r ;; k" := (rbind r (fun x => k))
  (at level 100, r at next level, right associativity) : result_scope.

(** ** Python float operators on reals *)

Module PyFloat.

(** [x / y] on floats. *)
Definition div (x y : R) : result R :=
  if Req_dec_T y 0 then Raise ZeroDivisionError else Ok (x / y).

(** Whether a float holds an integral value. *)
Definition is_integral (y : R) : bool :=
  if Req_dec_T (frac_part y) 0 then true else false.

(** [x ** y] on floats, following CPython's [float_pow]. *)
Definition pow (x y : R) : result R :=
  if Req_dec_T y 0 then Ok 1
  else if Req_dec_T x 0 then
    (if Rlt_dec y 0 then Raise ZeroDivisionError else Ok 0)
  else if Rlt_dec x 0 then
    (if is_integral y then Ok (powerRZ x (Int_part y)) else Raise ValueError)
  else Ok (Rpower x y).

End PyFloat.

Definition d2r : R := PI / 180.
Definition r2d : R := 180 / PI.

(** ** Python lists *)

Module PyList.

(** The position a subscript [l[i]] denotes: negative indices count from
    the end, anything outside [-len, len) is out of range. *)
Definition norm_index {A} (l : list A) (i : Z) : option nat :=
  let n := Z.of_nat (length l) in
  if decide (0 <= i < n)%Z then Some (Z.to_nat i)
  else if decide (- n <= i < 0)%Z then Some (Z.to_nat (i + n))
  else None.

(** [l[i]] *)
Definition getitem {A} (l : list A) (i : Z) : result A :=
  match norm_index l i with
  | Some k => match l !! k with Some x => Ok x | None => Raise IndexError end
  | None => Raise IndexError
  end.

(** [l[i] = x] *)
Definition setitem {A} (l : list A) (i : Z) (x : A) : result (list A) :=
  match norm_index l i with
  | Some k => Ok (<[k:=x]> l)
  | None => Raise IndexError
  end.

(** [l.append(x)] *)
Definition append {A} (l : list A) (x : A) : list A := l ++ [x].

(** [l.insert(i, x)]: the index is clamped, never out of range. *)
Definition insert {A} (l : list A) (i : Z) (x : A) : list A :=
  let n := Z.of_nat (length l) in
  let k := if decide (i < 0)%Z then Z.max 0 (i + n) else Z.min i n in
  take (Z.to_nat k) l ++ x :: drop (Z.to_nat k) l.

(** [l.remove(x)]: the first element equal to [x] is removed; [ValueError]
    when there is none. *)
Fixpoint remove {A} `{EqDecision A} (l : list A) (x : A) : result (list A) :=
  match l with
  | [] => Raise ValueError
  | y :: l' =>
      if decide (y = x) then Ok l'
      else match remove l' x with
           | Ok r => Ok (y :: r)
           | Raise e => Raise e
           end
  end.

End PyList.

(** ** Fault patch: [OkadaSource] *)

Module OkadaSource.

Record t : Type := mk {
  easting : R;
  northing : R;
  depth : R;
  width : R;
  length : R;
  strike : R;
  dip : R;
  rake : R;
  slip : R;
  nu : R;
  opening : R
}.

(** [dislocSource(self)] with the default [dsrc=None] every caller in the
    repository uses: a fresh array of ten entries, filled in order. *)
Definition dislocSource (self : t) : list R :=
  let dip := if Req_dec_T (dip self) 90 then dip self - 1e-5 else dip self in
  let ss_slip := cos (rake self * d2r) * slip self in
  let ds_slip := sin (rake self * d2r) * slip self in
  [ length self; width self; depth self; - dip; strike self;
    easting self; northing self; ss_slip; ds_slip; opening self ].

(** [outline(self)]: the four rows of [coords], as (easting, northing)
    pairs, after the patch position was added to both columns. *)
Definition outline (self : t) : list (R * R) :=
  let c_strike := cos (strike self * d2r) in
  let s_strike := sin (strike self * d2r) in
  let c_dip := cos (dip self * d2r) in
  let c00 := s_strike * length self / 2 in
  let c01 := c_strike * length self / 2 in
  let c10 := - c00 in
  let c11 := - c01 in
  let c20 := c10 - c_strike * c_dip * width self in
  let c21 := c11 + s_strike * c_dip * width self in
  let c30 := c00 - c_strike * c_dip * width self in
  let c31 := c01 + s_strike * c_dip * width self in
  [ (c00 + easting self, c01 + northing self);
    (c10 + easting self, c11 + northing self);
    (c20 + easting self, c21 + northing self);
    (c30 + easting self, c31 + northing self) ].

(** The [segments] property: a patch yields itself. *)
Definition segments (self : t) : list t := [self].

End OkadaSource.

(** ** Path segment: [OkadaSegment(OkadaSource)] adds the [enabled] flag *)

Module OkadaSegment.

Record t : Type := mk {
  base : OkadaSource.t;
  enabled : option bool   (* Bool.T(default=True, optional=True) *)
}.

(** Truth value of [seg.enabled]; [None] is falsy. *)
Definition is_enabled (seg : t) : bool :=
  match enabled seg with
  | Some b => b
  | None => false
  end.

(** An attribute name together with the value assigned to it. *)
Inductive attr : Type :=
  | Easting (v : R) | Northing (v : R) | Depth (v : R)
  | Width (v : R) | Length (v : R) | Strike (v : R) | Dip (v : R)
  | Rake (v : R) | Slip (v : R) | Nu (v : R) | Opening (v : R)
  | Enabled (b : option bool).

(** [segment.__setattr__(attr, val)] *)
Definition setattr (seg : t) (a : attr) : t :=
  let s := base seg in
  let 'OkadaSource.mk e n d w l st dp rk sl nu op := s in
  match a with
  | Easting v => mk (OkadaSource.mk v n d w l st dp rk sl nu op) (enabled seg)
  | Northing v => mk (OkadaSource.mk e v d w l st dp rk sl nu op) (enabled seg)
  | Depth v => mk (OkadaSource.mk e n v w l st dp rk sl nu op) (enabled seg)
  | Width v => mk (OkadaSource.mk e n d v l st dp rk sl nu op) (enabled seg)
  | Length v => mk (OkadaSource.mk e n d w v st dp rk sl nu op) (enabled seg)
  | Strike v => mk (OkadaSource.mk e n d w l v dp rk sl nu op) (enabled seg)
  | Dip v => mk (OkadaSource.mk e n d w l st v rk sl nu op) (enabled seg)
  | Rake v => mk (OkadaSource.mk e n d w l st dp v sl nu op) (enabled seg)
  | Slip v => mk (OkadaSource.mk e n d w l st dp rk v nu op) (enabled seg)
  | Nu v => mk (OkadaSource.mk e n d w l st dp rk sl v op) (enabled seg)
  | Opening v => mk (OkadaSource.mk e n d w l st dp rk sl nu v) (enabled seg)
  | Enabled b => mk s b
  end.

(** Assigning a dictionary of attributes, entry by entry. *)
Definition update (seg : t) (kw : list attr) : t := fold_left setattr kw seg.

(** Inherited [dislocSource]: it does not look at [enabled]. *)
Definition dislocSource (self : t) : list R := OkadaSource.dislocSource (base self).

End OkadaSegment.

(** ** Fault path: [OkadaPath] *)

Module OkadaPath.

Record t : Type := mk {
  origin_easting : R;
  origin_northing : R;
  nu : R;
  nodes : list (R * R);              (* [easting, northing] pairs *)
  segments : list OkadaSegment.t     (* self._segments *)
}.

(** A method body: it runs on the path object, may mutate it, and either
    returns or raises; what was mutated before a raise stays mutated. *)
Definition M (A : Type) : Type := t -> result A * t.

Definition ret {A} (a : A) : M A := fun self => (Ok a, self).

Definition bind {A B} (m : M A) (k : A -> M B) : M B :=
  fun self =>
    match m self with
    | (Ok a, self') => k a self'
    | (Raise e, self') => (Raise e, self')
    end.

Definition lift {A} (r : result A) : M A := fun self => (r, self).

Definition gets {A} (f : t -> A) : M A := fun self => (Ok (f self), self).

Definition set_nodes (l : list (R * R)) : M unit :=
  fun self => (Ok tt, mk (origin_easting self) (origin_northing self) (nu self) l (segments self)).

Definition set_segments (l : list OkadaSegment.t) : M unit :=
  fun self => (Ok tt, mk (origin_easting self) (origin_northing self) (nu self) (nodes self) l).

Declare Scope path_scope.
Delimit Scope path_scope with path.
Notation "x <- m ;; k" := (bind m (fun x => k))
  (at level 100, m at next level, right associativity) : path_scope.
Notation "m ;;; k" := (bind m (fun _ => k))
  (at level 100, right associativity) : path_scope.

Local Open Scope path_scope.

(** [self.nodes[i]] *)
Definition node (i : Z) : M (R * R) :=
  l <- gets nodes ;; lift (PyList.getitem l i).

(** [__init__]: no segments; the origin becomes the first node when no
    nodes are given. *)
Definition init (origin_easting origin_northing nu : R) (nodes : list (R * R)) : t :=
  mk origin_easting origin_northing nu
     (match nodes with
      | [] => PyList.append nodes (origin_easting, origin_northing)
      | _ => nodes
      end)
     [].

(** [__len__] *)
Definition len (self : t) : Z := Z.of_nat (List.length (segments self)).

(** [_newSegment(e1, n1, e2, n2, **kwargs)] (static).  The dictionary
    entries are evaluated in the order they are written; the attributes the
    dictionary does not set take the class defaults. *)
Definition _newSegment (e1 n1 e2 n2 : R) (kwargs : list OkadaSegment.attr)
  : result OkadaSegment.t :=
  (let dE := e2 - e1 in
   let dN := n2 - n1 in
   dN2 <- PyFloat.pow dN 2 ;;
   dE2 <- PyFloat.pow dE 2 ;;
   length <- PyFloat.pow (dN2 + dE2) 0.5 ;;
   hN <- PyFloat.div dN 2 ;;
   hE <- PyFloat.div dE 2 ;;
   p <- PyFloat.pow length 0.66 ;;
   q <- PyFloat.div dN length ;;
   let segment :=
     OkadaSegment.mk
       {| OkadaSource.northing := n1 + hN;
          OkadaSource.easting := e1 + hE;
          OkadaSource.depth := 0;
          OkadaSource.length := length;
          OkadaSource.width := 15 * p;
          OkadaSource.strike := acos q * r2d;
          OkadaSource.slip := 45;
          OkadaSource.rake := 90;
          OkadaSource.dip := 45;
          OkadaSource.nu := 1.25;
          OkadaSource.opening := 0 |}
       (Some true) in
   Ok (OkadaSegment.update segment kwargs))%res.

(** [_moveSegment(self, pos, e1, n1, e2, n2)]: the update dictionary is
    built first, then [self.segments[pos]] is looked up and assigned to.
    Every segment object is created by [_newSegment] and appended once, so
    it sits at one position of the list; assigning its attributes is
    replacing the entry at that position. *)
Definition _moveSegment (pos : Z) (e1 n1 e2 n2 : R) : M unit :=
  let dE := e2 - e1 in
  let dN := n2 - n1 in
  dN2 <- lift (PyFloat.pow dN 2) ;;
  dE2 <- lift (PyFloat.pow dE 2) ;;
  length <- lift (PyFloat.pow (dN2 + dE2) 0.5) ;;
  hN <- lift (PyFloat.div dN 2) ;;
  hE <- lift (PyFloat.div dE 2) ;;
  p <- lift (PyFloat.pow length 0.66) ;;
  q <- lift (PyFloat.div dN length) ;;
  let segment_update :=
    [ OkadaSegment.Northing (n1 + hN);
      OkadaSegment.Easting (e1 + hE);
      OkadaSegment.Length length;
      OkadaSegment.Width (15 * p);
      OkadaSegment.Strike (acos q * r2d) ] in
  segs <- gets segments ;;
  segment <- lift (PyList.getitem segs pos) ;;
  segs' <- lift (PyList.setitem segs pos (OkadaSegment.update segment segment_update)) ;;
  set_segments segs'.

(** [addNode(self, easting, northing)] (the [print] is not modelled). *)
Definition addNode (easting northing : R) : M unit :=
  l <- gets nodes ;;
  set_nodes (PyList.append l (easting, northing)) ;;;
  a1 <- node (-2) ;;
  a2 <- node (-2) ;;
  b1 <- node (-1) ;;
  b2 <- node (-1) ;;
  seg <- lift (_newSegment a1.1 a2.2 b1.1 b2.2 []) ;;
  segs <- gets segments ;;
  set_segments (PyList.append segs seg).

(** [insertNode(self, pos, easting, northing)] *)
Definition insertNode (pos : Z) (easting northing : R) : M unit :=
  l <- gets nodes ;;
  set_nodes (PyList.insert l pos (easting, northing)) ;;;
  a1 <- node pos ;;
  a2 <- node pos ;;
  b1 <- node (pos + 1) ;;
  b2 <- node (pos + 1) ;;
  seg <- lift (_newSegment a1.1 a2.2 b1.1 b2.2 []) ;;
  segs <- gets segments ;;
  set_segments (PyList.append segs seg) ;;;
  c1 <- node (pos - 1) ;;
  c2 <- node (pos - 1) ;;
  d1 <- node pos ;;
  d2 <- node pos ;;
  _moveSegment (pos - 1) c1.1 c2.2 d1.1 d2.2.

(** [moveNode(self, pos, easting, northing)] *)
Definition moveNode (pos : Z) (easting northing : R) : M unit :=
  l <- gets nodes ;;
  l' <- lift (PyList.setitem l pos (easting, northing)) ;;
  set_nodes l' ;;;
  n <- gets len ;;
  (if decide (pos < n)%Z then
     a1 <- node pos ;;
     a2 <- node pos ;;
     b1 <- node (pos + 1) ;;
     b2 <- node (pos + 1) ;;
     _moveSegment pos a1.1 a2.2 b1.1 b2.2
   else ret tt) ;;;
  (if decide (pos <> 0)%Z then
     c1 <- node (pos - 1) ;;
     c2 <- node (pos - 1) ;;
     d1 <- node pos ;;
     d2 <- node pos ;;
     _moveSegment pos c1.1 c2.2 d1.1 d2.2
   else ret tt).

(** The rows [seg.dislocSource() for seg in self.segments if seg.enabled]. *)
Definition enabled_rows (segs : list OkadaSegment.t) : list (list R) :=
  map OkadaSegment.dislocSource (List.filter OkadaSegment.is_enabled segs).

(** A caller's [path.segments[i].enabled = b]. *)
Definition set_enabled (i : Z) (b : option bool) : M unit :=
  segs <- gets segments ;;
  seg <- lift (PyList.getitem segs i) ;;
  segs' <- lift (PyList.setitem segs i (OkadaSegment.setattr seg (OkadaSegment.Enabled b))) ;;
  set_segments segs'.

End OkadaPath.

(** ** numpy arrays, as far as the pipeline uses them

    numpy is an external library; [array], [atleast_2d] and [vstack] follow
    its documented behaviour on the shapes that occur here. *)

Module Numpy.

(** A one-dimensional array, or a two-dimensional one given by its rows. *)
Inductive ndarray : Type :=
  | Arr1 (v : list R)
  | Arr2 (rows : list (list R)).

(** [num.array(rows)] for a list of equally long one-dimensional arrays:
    a matrix, and for the empty list the empty array of shape [(0,)]. *)
Definition array (rows : list (list R)) : ndarray :=
  match rows with
  | [] => Arr1 []
  | _ => Arr2 rows
  end.

(** [num.atleast_2d]: a vector of [n] entries becomes one row. *)
Definition atleast_2d (a : ndarray) : list (list R) :=
  match a with
  | Arr1 v => [v]
  | Arr2 rows => rows
  end.

Definition ncols (rows : list (list R)) : nat :=
  match rows with
  | [] => 0%nat
  | r :: _ => List.length r
  end.

(** [num.vstack(arrays)]: at least one array is needed and all must have
    the same number of columns, otherwise [ValueError]. *)
Definition vstack (arrays : list ndarray) : result ndarray :=
  match map atleast_2d arrays with
  | [] => Raise ValueError
  | m :: ms =>
      if forallb (fun m' => Nat.eqb (ncols m') (ncols m)) ms
      then Ok (Arr2 (concat (m :: ms)))
      else Raise ValueError
  end.

End Numpy.

(** ** Forward-model pipeline: [DislocProcessor] *)

(** What [process] accepts as a source: anything with [dislocSource()] and
    [nu], which the three classes of the module provide. *)
Inductive source : Type :=
  | Patch (s : OkadaSource.t)
  | Segment (s : OkadaSegment.t)
  | Path (p : OkadaPath.t).

Class Disloc (A : Type) : Type := {
  dislocSource : A -> Numpy.ndarray;
  nu : A -> R
}.

#[export] Instance OkadaSource_disloc : Disloc OkadaSource.t := {|
  dislocSource s := Numpy.Arr1 (OkadaSource.dislocSource s);
  nu := OkadaSource.nu
|}.

#[export] Instance OkadaSegment_disloc : Disloc OkadaSegment.t := {|
  dislocSource s := Numpy.Arr1 (OkadaSegment.dislocSource s);
  nu s := OkadaSource.nu (OkadaSegment.base s)
|}.

(** [OkadaPath.dislocSource]: the array of the enabled segments' rows. *)
#[export] Instance OkadaPath_disloc : Disloc OkadaPath.t := {|
  dislocSource p := Numpy.array (OkadaPath.enabled_rows (OkadaPath.segments p));
  nu := OkadaPath.nu
|}.

#[export] Instance source_disloc : Disloc source := {|
  dislocSource src :=
    match src with
    | Patch s => dislocSource s
    | Segment s => dislocSource s
    | Path p => dislocSource p
    end;
  nu src :=
    match src with
    | Patch s => nu s
    | Segment s => nu s
    | Path p => nu p
    end
|}.

Module DislocProcessor.

(** The arguments of one call of the native solver [disloc_ext.disloc]. *)
Record solver_call : Type := {
  call_src_arr : Numpy.ndarray;
  call_coords : list (list R);
  call_nu : R;
  call_nthreads : Z
}.

(** The dictionary [process] returns. *)
Record Result : Type := {
  processor_profile : list (nat * R);
  north : list R;
  east : list R;
  down : list R
}.

Section Process.

(** The native routine: one row of three displacements per observation
    point, or an error of its own. *)
Variable disloc : Numpy.ndarray -> list (list R) -> R -> Z -> result (list (R * R * R)).

(** [process(sources, coords, nthreads)], together with the solver calls
    it made.  After the list comprehension the loop variable [src] is still
    bound to the last source (Python 2 scoping). *)
Definition process (sources : list source) (coords : list (list R)) (nthreads : Z)
  : result Result * list solver_call :=
  match Numpy.vstack (map dislocSource sources) with
  | Raise e => (Raise e, [])
  | Ok src_arr =>
      match last sources with
      | None => (Raise NameError, [])
      | Some src =>
          let call := Build_solver_call src_arr coords (nu src) nthreads in
          (match disloc src_arr coords (nu src) nthreads with
           | Raise e => Raise e
           | Ok res =>
               Ok {| processor_profile := [];
                     north := map (fun r => r.1.1) res;
                     east := map (fun r => r.1.2) res;
                     down := map (fun r => r.2) res |}
           end, [call])
      end
  end.

End Process.

End DislocProcessor.

(** ** [src/meta.py]: cached properties and the observer *)

Module Meta.

Section property_cached.

(** Attribute values; [None] is Python's [None]. *)
Context {V : Type}.

(** [instance.__dict__] *)
Definition instance : Type := gmap string (option V).

(** The decorated method: it runs on the instance, may change it, and
    returns a value or raises. *)
Variable func : instance -> result (option V) * instance.

(** [func.__name__] *)
Variable func_name : string.

Definition var_name : string := "_cached_" +:+ func_name.

(** [d.get(key, None)] *)
Definition dict_get (d : instance) (key : string) : option V :=
  default None (d !! key).

(** The getter [cache_return(instance)].  Where [instance.__dict__[var_name]]
    is read the key is present (it was just assigned, or [get] found a
    value), so the subscript cannot raise. *)
Definition cache_return (self : instance) : result (option V) * instance :=
  match dict_get self var_name with
  | None =>
      match func self with
      | (Ok v, self') =>
          let self'' := <[var_name := v]> self' in
          (Ok (dict_get self'' var_name), self'')
      | (Raise e, self') => (Raise e, self')
      end
  | Some _ => (Ok (dict_get self var_name), self)
  end.

(** The setter [cache_return_setter(instance, value)]. *)
Definition cache_return_setter (self : instance) (value : option V) : instance :=
  <[var_name := value]> self.

End property_cached.

Section Subject.

(** Listeners are callables compared with [==]; what a call does is
    described on a world [W] of the things listeners act on.  Listeners that
    subscribe or unsubscribe during a notification are outside the model. *)
Context {L : Type} `{EqDecision L} {W : Type}.

Variable call : L -> W -> result unit * W.

(** The object state: [self._listeners]. *)
Definition Subject_init : list L := [].

Definition subscribe (_listeners : list L) (listener : L) : list L :=
  PyList.append _listeners listener.

Definition unsubscribe (_listeners : list L) (listener : L) : result (list L) :=
  PyList.remove _listeners listener.

(** [_notify]: the listeners are called in list order; an exception of a
    listener ends the loop and is passed on. *)
Fixpoint _notify (_listeners : list L) (w : W) : result unit * W :=
  match _listeners with
  | [] => (Ok tt, w)
  | l :: rest =>
      match call l w with
      | (Ok _, w') => _notify rest w'
      | (Raise e, w') => (Raise e, w')
      end
  end.

End Subject.

End Meta.

(** ** Closed forms used in the statements *)

(** The values [_newSegment] and [_moveSegment] compute from a node pair,
    once none of the float operators raises. *)
Definition seg_length (e1 n1 e2 n2 : R) : R :=
  sqrt ((n2 - n1) * (n2 - n1) + (e2 - e1) * (e2 - e1)).

Definition seg_width (length : R) : R :=
  15 * (if Req_dec_T length 0 then 0 else Rpower length 0.66).

Definition seg_strike (e1 n1 e2 n2 : R) : R :=
  acos ((n2 - n1) / seg_length e1 n1 e2 n2) * r2d.

(** The dictionary [segment_update] of [_moveSegment]. *)
Definition geometry (e1 n1 e2 n2 : R) : list OkadaSegment.attr :=
  [ OkadaSegment.Northing (n1 + (n2 - n1) / 2);
    OkadaSegment.Easting (e1 + (e2 - e1) / 2);
    OkadaSegment.Length (seg_length e1 n1 e2 n2);
    OkadaSegment.Width (seg_width (seg_length e1 n1 e2 n2));
    OkadaSegment.Strike (seg_strike e1 n1 e2 n2) ].

(** The segment [_newSegment] builds when no keyword is given. *)
Definition fresh_segment (e1 n1 e2 n2 : R) : OkadaSegment.t :=
  OkadaSegment.mk
    {| OkadaSource.northing := n1 + (n2 - n1) / 2;
       OkadaSource.easting := e1 + (e2 - e1) / 2;
       OkadaSource.depth := 0;
       OkadaSource.length := seg_length e1 n1 e2 n2;
       OkadaSource.width := seg_width (seg_length e1 n1 e2 n2);
       OkadaSource.strike := seg_strike e1 n1 e2 n2;
       OkadaSource.slip := 45;
       OkadaSource.rake := 90;
       OkadaSource.dip := 45;
       OkadaSource.nu := 1.25;
       OkadaSource.opening := 0 |}
    (Some true).

(** Replacing the node list or the segment list of a path. *)
Definition with_nodes (p : OkadaPath.t) (l : list (R * R)) : OkadaPath.t :=
  OkadaPath.mk (OkadaPath.origin_easting p) (OkadaPath.origin_northing p)
    (OkadaPath.nu p) l (OkadaPath.segments p).

Definition with_segments (p : OkadaPath.t) (l : list OkadaSegment.t) : OkadaPath.t :=
  OkadaPath.mk (OkadaPath.origin_easting p) (OkadaPath.origin_northing p)
    (OkadaPath.nu p) (OkadaPath.nodes p) l.

(** A path obtained from a single origin node by [addNode] and
    [insertNode] calls that returned and by [moveNode] calls, whether these
    returned or raised. *)
Inductive built : OkadaPath.t -> Prop :=
  | built_init oe on nu :
      built (OkadaPath.init oe on nu [])
  | built_addNode p e n p' :
      built p -> OkadaPath.addNode e n p = (Ok tt, p') -> built p'
  | built_insertNode p pos e n p' :
      built p -> OkadaPath.insertNode pos e n p = (Ok tt, p') -> built p'
  | built_moveNode p pos e n r p' :
      built p -> OkadaPath.moveNode pos e n p = (r, p') -> built p'.

(** Whether a source exposes an enabled segment: a plain patch yields
    itself and carries no flag, a segment carries its own, a path exposes
    its segments. *)
Definition has_enabled_segment (src : source) : bool :=
  match src with
  | Patch _ => true
  | Segment s => OkadaSegment.is_enabled s
  | Path p => existsb OkadaSegment.is_enabled (OkadaPath.segments p)
  end.

(** A caller's [src.nu = v]. *)
Definition set_nu (v : R) (src : source) : source :=
  match src with
  | Patch s =>
      Patch (OkadaSource.mk (OkadaSource.easting s) (OkadaSource.northing s)
               (OkadaSource.depth s) (OkadaSource.width s) (OkadaSource.length s)
               (OkadaSource.strike s) (OkadaSource.dip s) (OkadaSource.rake s)
               (OkadaSource.slip s) v (OkadaSource.opening s))
  | Segment s => Segment (OkadaSegment.setattr s (OkadaSegment.Nu v))
  | Path p =>
      Path (OkadaPath.mk (OkadaPath.origin_easting p) (OkadaPath.origin_northing p) v
              (OkadaPath.nodes p) (OkadaPath.segments p))
  end.

(** ** Example inputs *)

Definition origin_path : OkadaPath.t := OkadaPath.init 0 0 1.25 [].

Definition path2 : OkadaPath.t := (OkadaPath.addNode 0 1 origin_path).2.

Definition path3 : OkadaPath.t := (OkadaPath.addNode 0 2 path2).2.

(** [path2] with its only segment disabled. *)
Definition disabled_path : OkadaPath.t := (OkadaPath.set_enabled 0 (Some false) path2).2.

(** A solver stand-in for the examples: no displacement at any point. *)
Definition still_solver (src_arr : Numpy.ndarray) (coords : list (list R)) (nu : R)
    (nthreads : Z) : result (list (R * R * R)) :=
  Ok (map (fun _ => (0, 0, 0)) coords).

(** A solver stand-in that reports its arguments: at every observation
    point the displacement is ([nu], number of rows of the batch, thread
    count). *)
Definition echo_solver (src_arr : Numpy.ndarray) (coords : list (list R)) (nu : R)
    (nthreads : Z) : result (list (R * R * R)) :=
  Ok (map (fun _ => (nu, INR (List.length (Numpy.atleast_2d src_arr)), IZR nthreads)) coords).

(** What [process] returns for an answer of the solver: its exception, or
    the dictionary with the three columns of the matrix. *)
Definition solver_outcome (answer : result (list (R * R * R)))
  : result DislocProcessor.Result :=
  match answer with
  | Raise e => Raise e
  | Ok res =>
      Ok {| DislocProcessor.processor_profile := [];
            DislocProcessor.north := map (fun r => r.1.1) res;
            DislocProcessor.east := map (fun r => r.1.2) res;
            DislocProcessor.down := map (fun r => r.2) res |}
  end.

Definition patch_a : OkadaSource.t :=
  OkadaSource.mk 0 0 2000 5000 10000 45 45 90 1.5 1.25 0.

Definition patch_b : OkadaSource.t :=
  OkadaSource.mk 100 100 2000 5000 10000 45 45 90 1.5 0.25 0.

(** ** Notions used for the editing operations *)

(** What a segment carries besides its geometry: the flag and the
    attributes [_moveSegment] does not assign. *)
Definition kinematics (s : OkadaSegment.t)
  : option bool * R * R * R * R * R * R :=
  (OkadaSegment.enabled s,
   OkadaSource.depth (OkadaSegment.base s),
   OkadaSource.dip (OkadaSegment.base s),
   OkadaSource.rake (OkadaSegment.base s),
   OkadaSource.slip (OkadaSegment.base s),
   OkadaSource.nu (OkadaSegment.base s),
   OkadaSource.opening (OkadaSegment.base s)).

(** A segment as [_newSegment] leaves it and [_moveSegment] keeps it:
    enabled, with the creation values of the non-geometry attributes and a
    positive length. *)
Definition proper_segment (s : OkadaSegment.t) : Prop :=
  kinematics s = (Some true, 0, 45, 90, 45, 1.25, 0)
  /\ 0 < OkadaSource.length (OkadaSegment.base s).

(** The source vectors behind [src.dislocSource()]: the one of a patch or
    of a segment passed on its own, those of the enabled segments of a
    path. *)
Definition source_rows (src : source) : list (list R) :=
  match src with
  | Patch s => [OkadaSource.dislocSource s]
  | Segment s => [OkadaSegment.dislocSource s]
  | Path p => OkadaPath.enabled_rows (OkadaPath.segments p)
  end.

(** ** Facts about the float operators *)

Lemma div_nonzero (x y : R) : y <> 0 -> PyFloat.div x y = Ok (x / y).
Proof.
  intros Hy. unfold PyFloat.div. destruct (Req_dec_T y 0); [contradiction | reflexivity].
Qed.

Lemma div_zero (x : R) : PyFloat.div x 0 = Raise ZeroDivisionError.
Proof.
  unfold PyFloat.div. destruct (Req_dec_T 0 0) as [_ | H]; [reflexivity | now contradiction H].
Qed.

Lemma div_two (x : R) : PyFloat.div x 2 = Ok (x / 2).
Proof. apply div_nonzero. lra. Qed.

Lemma Int_part_two : Int_part 2 = 2%Z.
Proof. symmetry. apply Int_part_spec. simpl. lra. Qed.

Lemma frac_part_two : frac_part 2 = 0.
Proof. unfold frac_part. rewrite Int_part_two. simpl. lra. Qed.

Lemma pow_two (x : R) : PyFloat.pow x 2 = Ok (x * x).
Proof.
  unfold PyFloat.pow.
  destruct (Req_dec_T 2 0) as [H | _]; [lra |].
  destruct (Req_dec_T x 0) as [-> | Hx].
  - destruct (Rlt_dec 2 0); [lra |]. f_equal. lra.
  - destruct (Rlt_dec x 0) as [Hneg | Hpos].
    + unfold PyFloat.is_integral. rewrite frac_part_two.
      destruct (Req_dec_T 0 0) as [_ | H]; [| now contradiction H].
      rewrite Int_part_two. f_equal. simpl. lra.
    + f_equal. replace 2 with (INR 2) by (simpl; lra).
      rewrite Rpower_pow by lra. simpl. lra.
Qed.

Lemma pow_half (x : R) : 0 <= x -> PyFloat.pow x 0.5 = Ok (sqrt x).
Proof.
  intros Hx. unfold PyFloat.pow.
  destruct (Req_dec_T 0.5 0) as [H | _]; [lra |].
  destruct (Req_dec_T x 0) as [-> | Hx0].
  - destruct (Rlt_dec 0.5 0); [lra |]. now rewrite sqrt_0.
  - destruct (Rlt_dec x 0); [lra |].
    f_equal. replace 0.5 with (/ 2) by lra. apply Rpower_sqrt. lra.
Qed.

Lemma pow_066 (x : R) :
  0 <= x -> PyFloat.pow x 0.66 = Ok (if Req_dec_T x 0 then 0 else Rpower x 0.66).
Proof.
  intros Hx. unfold PyFloat.pow.
  destruct (Req_dec_T 0.66 0) as [H | _]; [lra |].
  destruct (Req_dec_T x 0) as [-> | Hx0].
  - destruct (Rlt_dec 0.66 0); [lra | reflexivity].
  - destruct (Rlt_dec x 0); [lra | reflexivity].
Qed.

Lemma sum_squares_nonneg (a b : R) : 0 <= a * a + b * b.
Proof. nra. Qed.

Lemma seg_length_nonneg e1 n1 e2 n2 : 0 <= seg_length e1 n1 e2 n2.
Proof. apply sqrt_pos. Qed.

Lemma seg_length_zero e1 n1 e2 n2 :
  seg_length e1 n1 e2 n2 = 0 <-> (e1, n1) = (e2, n2).
Proof.
  unfold seg_length. split.
  - intros H. apply sqrt_eq_0 in H; [| apply sum_squares_nonneg].
    apply Rplus_sqr_eq_0 in H. destruct H as [Hn He].
    f_equal; lra.
  - intros [= -> ->]. replace ((n2 - n2) * (n2 - n2) + (e2 - e2) * (e2 - e2)) with 0 by ring.
    apply sqrt_0.
Qed.

Lemma seg_length_coincident e n : seg_length e n e n = 0.
Proof. now apply seg_length_zero. Qed.

(** ** Facts about list subscripts *)

Lemma norm_index_lt {A} (l : list A) (i : Z) (k : nat) :
  PyList.norm_index l i = Some k -> (k < List.length l)%nat.
Proof.
  unfold PyList.norm_index. intros H.
  repeat case_decide; simplify_eq; lia.
Qed.

Lemma norm_index_nonneg {A} (l : list A) (k : nat) :
  (k < List.length l)%nat -> PyList.norm_index l (Z.of_nat k) = Some k.
Proof.
  intros H. unfold PyList.norm_index.
  case_decide; [f_equal; lia | lia].
Qed.

Lemma norm_index_neg {A} (l : list A) (j : nat) :
  (0 < j <= List.length l)%nat ->
  PyList.norm_index l (- Z.of_nat j) = Some (List.length l - j)%nat.
Proof.
  intros H. unfold PyList.norm_index.
  case_decide; [lia |]. case_decide; [f_equal; lia | lia].
Qed.

Lemma norm_index_out {A} (l : list A) (i : Z) :
  (Z.of_nat (List.length l) <= i)%Z -> PyList.norm_index l i = None.
Proof.
  intros H. unfold PyList.norm_index. repeat case_decide; try lia; reflexivity.
Qed.

Lemma getitem_norm {A} (l : list A) (i : Z) (k : nat) (x : A) :
  PyList.norm_index l i = Some k -> l !! k = Some x -> PyList.getitem l i = Ok x.
Proof. intros Hk Hx. unfold PyList.getitem. now rewrite Hk, Hx. Qed.

Lemma getitem_last {A} (l : list A) (x : A) : PyList.getitem (l ++ [x]) (-1) = Ok x.
Proof.
  apply getitem_norm with (k := List.length l).
  - change (-1)%Z with (- Z.of_nat 1)%Z. rewrite norm_index_neg.
    + f_equal. rewrite length_app. simpl. lia.
    + rewrite length_app. simpl. lia.
  - rewrite lookup_app_r by lia. now rewrite Nat.sub_diag.
Qed.

Lemma getitem_last_but_one {A} (l : list A) (x y : A) :
  PyList.getitem (l ++ [x; y]) (-2) = Ok x.
Proof.
  apply getitem_norm with (k := List.length l).
  - change (-2)%Z with (- Z.of_nat 2)%Z. rewrite norm_index_neg.
    + f_equal. rewrite length_app. simpl. lia.
    + rewrite length_app. simpl. lia.
  - rewrite lookup_app_r by lia. now rewrite Nat.sub_diag.
Qed.

Lemma insert_length {A} (l : list A) (i : Z) (x : A) :
  List.length (PyList.insert l i x) = S (List.length l).
Proof.
  unfold PyList.insert. rewrite length_app. simpl.
  rewrite length_take, length_drop. lia.
Qed.

Lemma setitem_length {A} (l l' : list A) (i : Z) (x : A) :
  PyList.setitem l i x = Ok l' -> List.length l' = List.length l.
Proof.
  unfold PyList.setitem. destruct (PyList.norm_index l i); [| discriminate].
  intros [= <-]. apply length_insert.
Qed.

(** ** Deriving a segment from a node pair *)

Lemma newSegment_ok e1 n1 e2 n2 kw :
  (e1, n1) <> (e2, n2) ->
  OkadaPath._newSegment e1 n1 e2 n2 kw
  = Ok (OkadaSegment.update (fresh_segment e1 n1 e2 n2) kw).
Proof.
  intros Hne. unfold OkadaPath._newSegment.
  rewrite !pow_two. cbn [rbind].
  rewrite pow_half by apply sum_squares_nonneg. cbn [rbind].
  rewrite !div_two. cbn [rbind].
  fold (seg_length e1 n1 e2 n2).
  rewrite pow_066 by apply seg_length_nonneg. cbn [rbind].
  rewrite div_nonzero by (now rewrite seg_length_zero).
  reflexivity.
Qed.

Lemma newSegment_coincident e n kw :
  OkadaPath._newSegment e n e n kw = Raise ZeroDivisionError.
Proof.
  unfold OkadaPath._newSegment.
  rewrite !pow_two. cbn [rbind].
  rewrite pow_half by apply sum_squares_nonneg. cbn [rbind].
  rewrite !div_two. cbn [rbind].
  fold (seg_length e n e n). rewrite seg_length_coincident.
  rewrite pow_066 by lra. cbn [rbind].
  now rewrite div_zero.
Qed.

Lemma moveSegment_run pos e1 n1 e2 n2 p :
  (e1, n1) <> (e2, n2) ->
  OkadaPath._moveSegment pos e1 n1 e2 n2 p
  = match PyList.norm_index (OkadaPath.segments p) pos with
    | Some k =>
        match OkadaPath.segments p !! k with
        | Some s =>
            (Ok tt,
             with_segments p
               (<[k := OkadaSegment.update s (geometry e1 n1 e2 n2)]> (OkadaPath.segments p)))
        | None => (Raise IndexError, p)
        end
    | None => (Raise IndexError, p)
    end.
Proof.
  intros Hne. unfold OkadaPath._moveSegment, OkadaPath.bind, OkadaPath.lift, OkadaPath.gets.
  rewrite !pow_two.
  rewrite pow_half by apply sum_squares_nonneg.
  rewrite !div_two.
  fold (seg_length e1 n1 e2 n2).
  rewrite pow_066 by apply seg_length_nonneg.
  rewrite div_nonzero by (now rewrite seg_length_zero).
  unfold PyList.getitem, PyList.setitem.
  destruct (PyList.norm_index (OkadaPath.segments p) pos) as [k |]; [| reflexivity].
  destruct (OkadaPath.segments p !! k) as [s |]; reflexivity.
Qed.

Lemma moveSegment_coincident pos e n p :
  OkadaPath._moveSegment pos e n e n p = (Raise ZeroDivisionError, p).
Proof.
  unfold OkadaPath._moveSegment, OkadaPath.bind, OkadaPath.lift.
  rewrite !pow_two.
  rewrite pow_half by apply sum_squares_nonneg.
  rewrite !div_two.
  fold (seg_length e n e n). rewrite seg_length_coincident.
  rewrite pow_066 by lra.
  now rewrite div_zero.
Qed.

(** ** Claims about segment derivation and the source vector *)

(** C4.  Deriving a segment from two coincident node points fails: both
    [_newSegment] and the recomputation [_moveSegment] (used by [moveNode]
    and [insertNode]) raise the division-by-zero error of the strike
    derivation, whatever the keywords or the position; no segment with
    length 0 is produced and the path's segments are left as they were. *)
Theorem coincident_nodes_raise (e n : R) (kwargs : list OkadaSegment.attr)
    (pos : Z) (p : OkadaPath.t) :
  OkadaPath._newSegment e n e n kwargs = Raise ZeroDivisionError
  /\ OkadaPath._moveSegment pos e n e n p = (Raise ZeroDivisionError, p).
Proof.
  split; [apply newSegment_coincident | apply moveSegment_coincident].
Qed.

(** C6.  The source vector has ten entries; entry 5 is the patch's easting
    and entry 6 its northing; entry 3 is [-dip], except for [dip = 90],
    where it is [-(90 - eps)] for a small positive [eps]; it is never
    [-90]. *)
Theorem dislocSource_vector (s : OkadaSource.t) :
  let v := OkadaSource.dislocSource s in
  List.length v = 10%nat
  /\ v !! 5%nat = Some (OkadaSource.easting s)
  /\ v !! 6%nat = Some (OkadaSource.northing s)
  /\ (OkadaSource.dip s <> 90 -> v !! 3%nat = Some (- OkadaSource.dip s))
  /\ (OkadaSource.dip s = 90 ->
      exists eps, 0 < eps <= 1 / 1000 /\ v !! 3%nat = Some (- (90 - eps)))
  /\ v !! 3%nat <> Some (- 90).
Proof.
  unfold OkadaSource.dislocSource. cbn [List.length lookup list_lookup].
  repeat split.
  - intros Hd. destruct (Req_dec_T (OkadaSource.dip s) 90); [contradiction | reflexivity].
  - intros Hd. exists 1e-5. split; [lra |].
    destruct (Req_dec_T (OkadaSource.dip s) 90); [now rewrite Hd | contradiction].
  - destruct (Req_dec_T (OkadaSource.dip s) 90) as [Hd | Hd]; intros [= H]; lra.
Qed.

(** C7.  For [L > 0] the segment derived from the nodes (0,0) and (0,L)
    has length [L] and strike 0 degrees, and the one derived from (0,0) and
    (L,0) has length [L] and strike 90 degrees. *)
Theorem newSegment_north_east (L : R) :
  0 < L ->
  exists s1 s2,
    OkadaPath._newSegment 0 0 0 L [] = Ok s1
    /\ OkadaSource.length (OkadaSegment.base s1) = L
    /\ OkadaSource.strike (OkadaSegment.base s1) = 0
    /\ OkadaPath._newSegment 0 0 L 0 [] = Ok s2
    /\ OkadaSource.length (OkadaSegment.base s2) = L
    /\ OkadaSource.strike (OkadaSegment.base s2) = 90.
Proof.
  intros HL.
  assert (Hn : seg_length 0 0 0 L = L).
  { unfold seg_length. replace ((L - 0) * (L - 0) + (0 - 0) * (0 - 0)) with (L * L) by ring.
    apply sqrt_square. lra. }
  assert (He : seg_length 0 0 L 0 = L).
  { unfold seg_length. replace ((0 - 0) * (0 - 0) + (L - 0) * (L - 0)) with (L * L) by ring.
    apply sqrt_square. lra. }
  exists (fresh_segment 0 0 0 L), (fresh_segment 0 0 L 0).
  repeat split.
  - apply newSegment_ok. intros [= H]. lra.
  - exact Hn.
  - cbn. unfold seg_strike. rewrite Hn.
    replace ((L - 0) / L) with 1 by (field; lra).
    rewrite acos_1. lra.
  - apply newSegment_ok. intros [= H]. lra.
  - exact He.
  - cbn. unfold seg_strike, r2d. rewrite He.
    replace ((0 - 0) / L) with 0 by (field; lra).
    rewrite acos_0. field. apply PI_neq0.
Qed.

Lemma newSegment_north_east_witness :
  exists s1 s2,
    OkadaPath._newSegment 0 0 0 1000 [] = Ok s1
    /\ OkadaSource.length (OkadaSegment.base s1) = 1000
    /\ OkadaSource.strike (OkadaSegment.base s1) = 0
    /\ OkadaPath._newSegment 0 0 1000 0 [] = Ok s2
    /\ OkadaSource.length (OkadaSegment.base s2) = 1000
    /\ OkadaSource.strike (OkadaSegment.base s2) = 90.
Proof. apply (newSegment_north_east 1000). lra. Defined.

(** ** Enabling and disabling segments *)

Lemma enabled_rows_app (l1 l2 : list OkadaSegment.t) :
  OkadaPath.enabled_rows (l1 ++ l2)
  = OkadaPath.enabled_rows l1 ++ OkadaPath.enabled_rows l2.
Proof. unfold OkadaPath.enabled_rows. now rewrite List.filter_app, map_app. Qed.

Lemma enabled_rows_cons (s : OkadaSegment.t) (l : list OkadaSegment.t) :
  OkadaPath.enabled_rows (s :: l)
  = if OkadaSegment.is_enabled s
    then OkadaSegment.dislocSource s :: OkadaPath.enabled_rows l
    else OkadaPath.enabled_rows l.
Proof. unfold OkadaPath.enabled_rows. simpl. now destruct (OkadaSegment.is_enabled s). Qed.

Lemma setattr_enabled_base (s : OkadaSegment.t) (b : option bool) :
  OkadaSegment.base (OkadaSegment.setattr s (OkadaSegment.Enabled b)) = OkadaSegment.base s
  /\ OkadaSegment.enabled (OkadaSegment.setattr s (OkadaSegment.Enabled b)) = b.
Proof. destruct s as [[] ?]. split; reflexivity. Qed.

Lemma set_enabled_run (i : Z) (b : option bool) (p : OkadaPath.t) (k : nat) (s : OkadaSegment.t) :
  PyList.norm_index (OkadaPath.segments p) i = Some k ->
  OkadaPath.segments p !! k = Some s ->
  OkadaPath.set_enabled i b p
  = (Ok tt,
     with_segments p
       (<[k := OkadaSegment.setattr s (OkadaSegment.Enabled b)]> (OkadaPath.segments p))).
Proof.
  intros Hk Hs.
  unfold OkadaPath.set_enabled, OkadaPath.bind, OkadaPath.lift, OkadaPath.gets.
  unfold PyList.getitem, PyList.setitem. now rewrite Hk, Hs.
Qed.

(** C8.  Setting a segment's [enabled] flag to false leaves the nodes and
    the number of segments unchanged, keeps the segment in its place with
    all other attributes as they were, and leaves every other segment alone;
    the batch the path's [dislocSource()] returns then consists of the rows
    of the enabled segments before it followed by those after it, in order,
    which is the previous batch without the segment's row. *)
Theorem disable_segment (p : OkadaPath.t) (i : Z) (k : nat) (s : OkadaSegment.t) :
  PyList.norm_index (OkadaPath.segments p) i = Some k ->
  OkadaPath.segments p !! k = Some s ->
  exists p' s',
    OkadaPath.set_enabled i (Some false) p = (Ok tt, p')
    /\ OkadaPath.nodes p' = OkadaPath.nodes p
    /\ List.length (OkadaPath.segments p') = List.length (OkadaPath.segments p)
    /\ OkadaPath.segments p' !! k = Some s'
    /\ OkadaSegment.base s' = OkadaSegment.base s
    /\ OkadaSegment.enabled s' = Some false
    /\ (forall j, j <> k -> OkadaPath.segments p' !! j = OkadaPath.segments p !! j)
    /\ dislocSource p'
       = Numpy.array (OkadaPath.enabled_rows (take k (OkadaPath.segments p))
                      ++ OkadaPath.enabled_rows (drop (S k) (OkadaPath.segments p)))
    /\ OkadaPath.enabled_rows (OkadaPath.segments p)
       = OkadaPath.enabled_rows (take k (OkadaPath.segments p))
         ++ (if OkadaSegment.is_enabled s then [OkadaSegment.dislocSource s] else [])
         ++ OkadaPath.enabled_rows (drop (S k) (OkadaPath.segments p)).
Proof.
  intros Hk Hs.
  pose proof (lookup_lt_Some _ _ _ Hs) as Hlt.
  destruct (setattr_enabled_base s (Some false)) as [Hbase Hen].
  eexists _, (OkadaSegment.setattr s (OkadaSegment.Enabled (Some false))).
  split; [apply (set_enabled_run _ _ _ _ _ Hk Hs) |].
  cbn [with_segments OkadaPath.nodes OkadaPath.segments].
  repeat split.
  - apply length_insert.
  - now apply list_lookup_insert_eq.
  - exact Hbase.
  - exact Hen.
  - intros j Hj. now apply list_lookup_insert_ne.
  - cbn [dislocSource OkadaPath_disloc with_segments OkadaPath.segments]. f_equal.
    rewrite insert_take_drop by exact Hlt.
    rewrite enabled_rows_app, enabled_rows_cons.
    unfold OkadaSegment.is_enabled. now rewrite Hen.
  - pose proof (take_drop_middle _ _ _ Hs) as Hsplit.
    rewrite <- Hsplit at 1.
    rewrite enabled_rows_app, enabled_rows_cons.
    now destruct (OkadaSegment.is_enabled s).
Qed.

(** ** How the editing operations change the two sequences *)

Ltac unfold_M :=
  repeat progress
    (unfold OkadaPath.bind, OkadaPath.gets, OkadaPath.set_nodes, OkadaPath.node,
       OkadaPath.lift, OkadaPath.set_segments, OkadaPath.ret in *).

Lemma pair_eq_dec_R (a b : R * R) : {a = b} + {a <> b}.
Proof.
  destruct a as [a1 a2], b as [b1 b2].
  destruct (Req_dec_T a1 b1) as [-> | H1]; [| right; congruence].
  destruct (Req_dec_T a2 b2) as [-> | H2]; [left; reflexivity | right; congruence].
Qed.

Lemma moveSegment_frame pos e1 n1 e2 n2 p r p' :
  OkadaPath._moveSegment pos e1 n1 e2 n2 p = (r, p') ->
  OkadaPath.nodes p' = OkadaPath.nodes p
  /\ List.length (OkadaPath.segments p') = List.length (OkadaPath.segments p).
Proof.
  destruct (pair_eq_dec_R (e1, n1) (e2, n2)) as [[= -> ->] | Hne].
  - rewrite moveSegment_coincident. intros [= _ <-]. auto.
  - rewrite moveSegment_run by exact Hne. intros H.
    repeat case_match; simplify_eq; cbn; auto using length_insert.
Qed.

Lemma addNode_lengths e n p p' :
  OkadaPath.addNode e n p = (Ok tt, p') ->
  List.length (OkadaPath.nodes p') = S (List.length (OkadaPath.nodes p))
  /\ List.length (OkadaPath.segments p') = S (List.length (OkadaPath.segments p)).
Proof.
  unfold OkadaPath.addNode. unfold_M. intros H.
  repeat case_match; simplify_eq. cbn.
  unfold PyList.append. rewrite !length_app. cbn. lia.
Qed.

Lemma insertNode_lengths pos e n p p' :
  OkadaPath.insertNode pos e n p = (Ok tt, p') ->
  List.length (OkadaPath.nodes p') = S (List.length (OkadaPath.nodes p))
  /\ List.length (OkadaPath.segments p') = S (List.length (OkadaPath.segments p)).
Proof.
  unfold OkadaPath.insertNode. unfold_M. intros H.
  repeat case_match; simplify_eq.
  match goal with
  | Hm : OkadaPath._moveSegment _ _ _ _ _ _ = _ |- _ =>
      apply moveSegment_frame in Hm; destruct Hm as [Hn Hs]
  end.
  cbn in Hn, Hs. rewrite Hn, Hs, insert_length.
  unfold PyList.append. rewrite length_app. cbn. lia.
Qed.

Lemma moveNode_lengths pos e n p r p' :
  OkadaPath.moveNode pos e n p = (r, p') ->
  List.length (OkadaPath.nodes p') = List.length (OkadaPath.nodes p)
  /\ List.length (OkadaPath.segments p') = List.length (OkadaPath.segments p).
Proof.
  unfold OkadaPath.moveNode. unfold_M. intros H.
  repeat case_match; simplify_eq;
    repeat match goal with
      | Hm : OkadaPath._moveSegment _ _ _ _ _ _ = _ |- _ =>
          apply moveSegment_frame in Hm; destruct Hm as [? ?]
      | Hs : PyList.setitem _ _ _ = Ok _ |- _ => apply setitem_length in Hs
      end;
    cbn in *; split; congruence.
Qed.

Lemma built_invariant (p : OkadaPath.t) :
  built p -> List.length (OkadaPath.nodes p) = S (List.length (OkadaPath.segments p)).
Proof.
  induction 1 as [oe on nu | p e n p' _ IH Hrun | p pos e n p' _ IH Hrun
                 | p pos e n r p' _ IH Hrun].
  - reflexivity.
  - apply addNode_lengths in Hrun. lia.
  - apply insertNode_lengths in Hrun. lia.
  - apply moveNode_lengths in Hrun. lia.
Qed.

(** ** The segment-count invariant *)

(** C1, amended.  A path built from a single origin node by [addNode] and
    [insertNode] calls that all returned and by [moveNode] calls, returning
    or raising, has, as soon as it has [N >= 2] nodes, exactly [N - 1]
    segments. *)
Theorem segments_count (p : OkadaPath.t) :
  built p ->
  (2 <= List.length (OkadaPath.nodes p))%nat ->
  List.length (OkadaPath.segments p) = (List.length (OkadaPath.nodes p) - 1)%nat.
Proof.
  intros Hb _. apply built_invariant in Hb. lia.
Qed.

(** ** What each editing operation does, step by step *)

Lemma getitem_nat {A} (l : list A) (k : nat) (x : A) (i : Z) :
  l !! k = Some x -> i = Z.of_nat k -> PyList.getitem l i = Ok x.
Proof.
  intros Hx ->. apply getitem_norm with (k := k); [| exact Hx].
  apply norm_index_nonneg. now apply lookup_lt_Some in Hx.
Qed.

Lemma getitem_out {A} (l : list A) (i : Z) :
  (Z.of_nat (List.length l) <= i)%Z -> PyList.getitem l i = Raise IndexError.
Proof. intros H. unfold PyList.getitem. now rewrite norm_index_out. Qed.

Lemma setitem_nat {A} (l : list A) (k : nat) (x : A) (i : Z) :
  (k < List.length l)%nat -> i = Z.of_nat k -> PyList.setitem l i x = Ok (<[k := x]> l).
Proof.
  intros Hk ->. unfold PyList.setitem. now rewrite norm_index_nonneg.
Qed.

Lemma update_geometry_twice (s : OkadaSegment.t) e1 n1 e2 n2 e3 n3 e4 n4 :
  OkadaSegment.update (OkadaSegment.update s (geometry e1 n1 e2 n2)) (geometry e3 n3 e4 n4)
  = OkadaSegment.update s (geometry e3 n3 e4 n4).
Proof. destruct s as [[] ?]. reflexivity. Qed.

Lemma update_geometry_keeps (s : OkadaSegment.t) e1 n1 e2 n2 :
  let s' := OkadaSegment.update s (geometry e1 n1 e2 n2) in
  OkadaSegment.enabled s' = OkadaSegment.enabled s
  /\ OkadaSource.slip (OkadaSegment.base s') = OkadaSource.slip (OkadaSegment.base s)
  /\ OkadaSource.rake (OkadaSegment.base s') = OkadaSource.rake (OkadaSegment.base s)
  /\ OkadaSource.dip (OkadaSegment.base s') = OkadaSource.dip (OkadaSegment.base s)
  /\ OkadaSource.depth (OkadaSegment.base s') = OkadaSource.depth (OkadaSegment.base s)
  /\ OkadaSource.nu (OkadaSegment.base s') = OkadaSource.nu (OkadaSegment.base s)
  /\ OkadaSource.opening (OkadaSegment.base s') = OkadaSource.opening (OkadaSegment.base s).
Proof. destruct s as [[] ?]. cbn. repeat split. Qed.

Lemma update_geometry_fields (s : OkadaSegment.t) e1 n1 e2 n2 :
  let s' := OkadaSegment.update s (geometry e1 n1 e2 n2) in
  OkadaSource.northing (OkadaSegment.base s') = n1 + (n2 - n1) / 2
  /\ OkadaSource.easting (OkadaSegment.base s') = e1 + (e2 - e1) / 2
  /\ OkadaSource.length (OkadaSegment.base s') = seg_length e1 n1 e2 n2
  /\ OkadaSource.width (OkadaSegment.base s') = seg_width (seg_length e1 n1 e2 n2)
  /\ OkadaSource.strike (OkadaSegment.base s') = seg_strike e1 n1 e2 n2.
Proof. destruct s as [[] ?]. cbn. repeat split. Qed.

Lemma addNode_run (p : OkadaPath.t) (l : list (R * R)) (a : R * R) (e n : R) :
  OkadaPath.nodes p = l ++ [a] ->
  a <> (e, n) ->
  OkadaPath.addNode e n p
  = (Ok tt,
     with_segments (with_nodes p (OkadaPath.nodes p ++ [(e, n)]))
       (OkadaPath.segments p ++ [fresh_segment a.1 a.2 e n])).
Proof.
  intros Hl Hne. unfold OkadaPath.addNode. unfold_M. cbn.
  unfold PyList.append. rewrite Hl, <- app_assoc. cbn [app].
  rewrite getitem_last_but_one.
  replace (l ++ [a; (e, n)]) with ((l ++ [a]) ++ [(e, n)]) by now rewrite <- app_assoc.
  rewrite getitem_last. cbn.
  rewrite newSegment_ok by (destruct a; exact Hne).
  reflexivity.
Qed.

Lemma addNode_coincident (p : OkadaPath.t) (l : list (R * R)) (e n : R) :
  OkadaPath.nodes p = l ++ [(e, n)] ->
  OkadaPath.addNode e n p
  = (Raise ZeroDivisionError, with_nodes p (OkadaPath.nodes p ++ [(e, n)])).
Proof.
  intros Hl. unfold OkadaPath.addNode. unfold_M. cbn.
  unfold PyList.append. rewrite Hl, <- app_assoc. cbn [app].
  rewrite getitem_last_but_one.
  replace (l ++ [(e, n); (e, n)]) with ((l ++ [(e, n)]) ++ [(e, n)]) by now rewrite <- app_assoc.
  rewrite getitem_last. cbn.
  now rewrite newSegment_coincident.
Qed.

Arguments OkadaPath._moveSegment : simpl never.
Arguments OkadaPath._newSegment : simpl never.
Arguments PyList.getitem : simpl never.
Arguments PyList.setitem : simpl never.
Arguments PyList.norm_index : simpl never.
Arguments OkadaSegment.update : simpl never.
Arguments geometry : simpl never.

Lemma moveNode_interior (p : OkadaPath.t) (k : nat) (e n : R) (a b : R * R)
    (s : OkadaSegment.t) :
  (0 < k)%nat ->
  OkadaPath.nodes p !! (k - 1)%nat = Some a ->
  OkadaPath.nodes p !! (k + 1)%nat = Some b ->
  OkadaPath.segments p !! k = Some s ->
  (e, n) <> b ->
  a <> (e, n) ->
  OkadaPath.moveNode (Z.of_nat k) e n p
  = (Ok tt,
     with_segments (with_nodes p (<[k := (e, n)]> (OkadaPath.nodes p)))
       (<[k := OkadaSegment.update s (geometry a.1 a.2 e n)]> (OkadaPath.segments p))).
Proof.
  intros Hk Ha Hb Hs Hxb Hax.
  pose proof (lookup_lt_Some _ _ _ Hb) as Hlen.
  pose proof (lookup_lt_Some _ _ _ Hs) as Hslen.
  unfold OkadaPath.moveNode. unfold_M. cbn.
  rewrite (setitem_nat _ k) by (lia || reflexivity). cbn.
  unfold OkadaPath.len. cbn.
  case_decide; [| lia].
  unfold_M. cbn.
  rewrite (getitem_nat _ k (e, n)) by (reflexivity || (apply list_lookup_insert_eq; lia)).
  rewrite (getitem_nat _ (k + 1) b) by (lia || (rewrite list_lookup_insert_ne by lia; exact Hb)).
  cbn.
  rewrite moveSegment_run by (destruct b; exact Hxb). cbn.
  rewrite norm_index_nonneg by exact Hslen. rewrite Hs.
  case_decide; [| lia].
  unfold_M. cbn.
  rewrite (getitem_nat _ (k - 1) a) by (lia || (rewrite list_lookup_insert_ne by lia; exact Ha)).
  rewrite (getitem_nat _ k (e, n)) by (reflexivity || (apply list_lookup_insert_eq; lia)).
  cbn.
  rewrite moveSegment_run by (destruct a; exact Hax). cbn.
  rewrite norm_index_nonneg by (rewrite length_insert; exact Hslen).
  rewrite list_lookup_insert_eq by exact Hslen.
  rewrite update_geometry_twice, list_insert_insert_eq.
  reflexivity.
Qed.

Lemma moveNode_first (p : OkadaPath.t) (e n : R) (a b : R * R)
    (l : list (R * R)) (s : OkadaSegment.t) (segs : list OkadaSegment.t) :
  OkadaPath.nodes p = a :: b :: l ->
  OkadaPath.segments p = s :: segs ->
  (e, n) <> b ->
  OkadaPath.moveNode 0 e n p
  = (Ok tt,
     with_segments (with_nodes p ((e, n) :: b :: l))
       (OkadaSegment.update s (geometry e n b.1 b.2) :: segs)).
Proof.
  intros Hn Hs Hxb.
  unfold OkadaPath.moveNode. unfold_M. cbn.
  rewrite Hn.
  rewrite (setitem_nat _ 0) by (cbn; lia || reflexivity). cbn.
  unfold OkadaPath.len. cbn. rewrite Hs.
  case_decide; [| cbn in *; lia].
  unfold_M. cbn.
  rewrite (getitem_nat _ 0%nat (e, n)) by reflexivity.
  rewrite (getitem_nat _ 1%nat b) by reflexivity.
  cbn.
  rewrite moveSegment_run by (destruct b; exact Hxb). cbn.
  rewrite (norm_index_nonneg _ 0) by (cbn; lia). cbn.
  case_decide; [lia |].
  reflexivity.
Qed.

Lemma moveNode_last (p : OkadaPath.t) (k : nat) (e n : R) (a : R * R) :
  List.length (OkadaPath.nodes p) = S (List.length (OkadaPath.segments p)) ->
  k = List.length (OkadaPath.segments p) ->
  (0 < k)%nat ->
  OkadaPath.nodes p !! (k - 1)%nat = Some a ->
  a <> (e, n) ->
  OkadaPath.moveNode (Z.of_nat k) e n p
  = (Raise IndexError, with_nodes p (<[k := (e, n)]> (OkadaPath.nodes p))).
Proof.
  intros Hinv Hk Hpos Ha Hax.
  unfold OkadaPath.moveNode. unfold_M. cbn.
  rewrite (setitem_nat _ k) by (lia || reflexivity). cbn.
  unfold OkadaPath.len. cbn.
  case_decide; [lia |].
  case_decide; [| lia].
  unfold_M. cbn.
  rewrite (getitem_nat _ (k - 1) a) by (lia || (rewrite list_lookup_insert_ne by lia; exact Ha)).
  rewrite (getitem_nat _ k (e, n)) by (reflexivity || (apply list_lookup_insert_eq; lia)).
  cbn.
  rewrite moveSegment_run by (destruct a; exact Hax). cbn.
  rewrite norm_index_out by lia.
  reflexivity.
Qed.

Lemma insert_nat {A} (l : list A) (k : nat) (x : A) :
  (k <= List.length l)%nat ->
  PyList.insert l (Z.of_nat k) x = take k l ++ x :: drop k l.
Proof.
  intros Hk. unfold PyList.insert.
  case_decide; [lia |].
  replace (Z.to_nat (Z.min (Z.of_nat k) (Z.of_nat (List.length l)))) with k by lia.
  reflexivity.
Qed.

Lemma inserted_lookup_eq {A} (l : list A) (k : nat) (x : A) :
  (k <= List.length l)%nat -> (take k l ++ x :: drop k l) !! k = Some x.
Proof.
  intros Hk. rewrite lookup_app_r by (rewrite length_take; lia).
  rewrite length_take. now replace (k - k `min` List.length l)%nat with 0%nat by lia.
Qed.

Lemma inserted_lookup_lt {A} (l : list A) (k j : nat) (x : A) :
  (j < k <= List.length l)%nat -> (take k l ++ x :: drop k l) !! j = l !! j.
Proof.
  intros Hk. rewrite lookup_app_l by (rewrite length_take; lia).
  apply lookup_take_lt. lia.
Qed.

Lemma inserted_lookup_gt {A} (l : list A) (k j : nat) (x : A) :
  (k <= j)%nat -> (k <= List.length l)%nat ->
  (take k l ++ x :: drop k l) !! (S j) = l !! j.
Proof.
  intros Hj Hk. rewrite lookup_app_r by (rewrite length_take; lia).
  rewrite length_take.
  replace (S j - k `min` List.length l)%nat with (S (j - k)) by lia.
  change ((x :: drop k l) !! S (j - k)%nat) with (drop k l !! (j - k)%nat).
  rewrite lookup_drop. f_equal. lia.
Qed.

Lemma insertNode_interior (p : OkadaPath.t) (k : nat) (e n : R) (a b : R * R)
    (s : OkadaSegment.t) :
  (0 < k)%nat ->
  OkadaPath.nodes p !! (k - 1)%nat = Some a ->
  OkadaPath.nodes p !! k = Some b ->
  OkadaPath.segments p !! (k - 1)%nat = Some s ->
  (e, n) <> b ->
  a <> (e, n) ->
  OkadaPath.insertNode (Z.of_nat k) e n p
  = (Ok tt,
     with_segments
       (with_nodes p (take k (OkadaPath.nodes p) ++ (e, n) :: drop k (OkadaPath.nodes p)))
       (<[(k - 1)%nat := OkadaSegment.update s (geometry a.1 a.2 e n)]>
          (OkadaPath.segments p ++ [fresh_segment e n b.1 b.2]))).
Proof.
  intros Hk Ha Hb Hs Hxb Hax.
  pose proof (lookup_lt_Some _ _ _ Hb) as Hlen.
  pose proof (lookup_lt_Some _ _ _ Hs) as Hslen.
  unfold OkadaPath.insertNode. unfold_M. cbn.
  rewrite insert_nat by lia.
  rewrite (getitem_nat _ k (e, n)) by (reflexivity || (apply inserted_lookup_eq; lia)).
  rewrite (getitem_nat _ (S k) b) by (lia || (rewrite inserted_lookup_gt by lia; exact Hb)).
  cbn.
  rewrite newSegment_ok by (destruct b; exact Hxb). cbn.
  rewrite (getitem_nat _ (k - 1) a) by (lia || (rewrite inserted_lookup_lt by lia; exact Ha)).
  cbn.
  rewrite moveSegment_run by (destruct a; exact Hax). cbn.
  unfold PyList.append.
  replace (Z.of_nat k - 1)%Z with (Z.of_nat (k - 1)) by lia.
  rewrite norm_index_nonneg by (rewrite length_app; cbn; lia).
  rewrite lookup_app_l by exact Hslen. rewrite Hs.
  reflexivity.
Qed.

Lemma insertNode_first (p : OkadaPath.t) (e n : R) (b z : R * R)
    (l l0 : list (R * R)) :
  OkadaPath.nodes p = b :: l ->
  OkadaPath.nodes p = l0 ++ [z] ->
  (e, n) <> b ->
  z <> (e, n) ->
  OkadaPath.insertNode 0 e n p
  = (Ok tt,
     with_segments (with_nodes p ((e, n) :: OkadaPath.nodes p))
       (OkadaPath.segments p
        ++ [OkadaSegment.update (fresh_segment e n b.1 b.2) (geometry z.1 z.2 e n)])).
Proof.
  intros Hn Hz Hxb Hzx.
  unfold OkadaPath.insertNode. unfold_M. cbn.
  rewrite (insert_nat _ 0) by lia. rewrite take_0, drop_0. cbn [app].
  change (0 - 1)%Z with (-1)%Z. change (0 + 1)%Z with 1%Z.
  rewrite (getitem_nat _ 0%nat (e, n)) by reflexivity.
  rewrite (getitem_nat _ 1%nat b) by (reflexivity || now rewrite Hn).
  cbn.
  rewrite newSegment_ok by (destruct b; exact Hxb). cbn.
  replace (PyList.getitem ((e, n) :: OkadaPath.nodes p) (-1)) with (Ok z : result (R * R)).
  2:{ rewrite Hz. change ((e, n) :: l0 ++ [z]) with (((e, n) :: l0) ++ [z]).
      now rewrite getitem_last. }
  cbn.
  rewrite moveSegment_run by (destruct z; exact Hzx). cbn.
  unfold PyList.append.
  change (-1)%Z with (- Z.of_nat 1)%Z.
  rewrite norm_index_neg by (rewrite length_app; cbn; lia).
  rewrite length_app. cbn.
  replace (List.length (OkadaPath.segments p) + 1 - 1)%nat
    with (List.length (OkadaPath.segments p) + 0)%nat by lia.
  rewrite lookup_app_r by lia.
  replace (List.length (OkadaPath.segments p) + 0 - List.length (OkadaPath.segments p))%nat
    with 0%nat by lia.
  cbn. rewrite insert_app_r. reflexivity.
Qed.


(** ** Example paths *)

Lemma path2_run :
  OkadaPath.addNode 0 1 origin_path
  = (Ok tt, OkadaPath.mk 0 0 1.25 [(0, 0); (0, 1)] [fresh_segment 0 0 0 1]).
Proof.
  rewrite (addNode_run origin_path [] (0, 0) 0 1); [reflexivity | reflexivity |].
  intros [= H]. lra.
Qed.

Lemma path2_eq :
  path2 = OkadaPath.mk 0 0 1.25 [(0, 0); (0, 1)] [fresh_segment 0 0 0 1].
Proof. unfold path2. now rewrite path2_run. Qed.

Lemma path3_run :
  OkadaPath.addNode 0 2 path2
  = (Ok tt,
     OkadaPath.mk 0 0 1.25 [(0, 0); (0, 1); (0, 2)]
       [fresh_segment 0 0 0 1; fresh_segment 0 1 0 2]).
Proof.
  rewrite path2_eq.
  rewrite (addNode_run _ [(0, 0)] (0, 1) 0 2); [reflexivity | reflexivity |].
  intros [= H]. lra.
Qed.

Lemma path3_eq :
  path3
  = OkadaPath.mk 0 0 1.25 [(0, 0); (0, 1); (0, 2)]
      [fresh_segment 0 0 0 1; fresh_segment 0 1 0 2].
Proof. unfold path3. now rewrite path3_run. Qed.

Lemma disable_segment_witness :
  exists p' s',
    OkadaPath.set_enabled 0 (Some false) path2 = (Ok tt, p')
    /\ OkadaPath.nodes p' = OkadaPath.nodes path2
    /\ List.length (OkadaPath.segments p') = List.length (OkadaPath.segments path2)
    /\ OkadaPath.segments p' !! 0%nat = Some s'
    /\ OkadaSegment.base s' = OkadaSegment.base (fresh_segment 0 0 0 1)
    /\ OkadaSegment.enabled s' = Some false
    /\ dislocSource p' = Numpy.Arr1 []
    /\ OkadaPath.enabled_rows (OkadaPath.segments path2)
       = [OkadaSegment.dislocSource (fresh_segment 0 0 0 1)].
Proof.
  destruct (disable_segment path2 0 0 (fresh_segment 0 0 0 1))
    as (p' & s' & Hrun & Hnodes & Hlen & Hs' & Hbase & Hen & _ & Hrows & Hold).
  - now rewrite path2_eq.
  - now rewrite path2_eq.
  - exists p', s'. repeat split; try assumption.
    + rewrite Hrows, path2_eq. reflexivity.
    + rewrite path2_eq. reflexivity.
Defined.

Lemma built_path2 : built path2.
Proof.
  apply (built_addNode origin_path 0 1); [apply built_init |].
  rewrite path2_run. now rewrite path2_eq.
Qed.

Lemma built_path3 : built path3.
Proof.
  apply (built_addNode path2 0 2); [apply built_path2 |].
  rewrite path3_run. now rewrite path3_eq.
Qed.

Lemma segments_count_witness :
  List.length (OkadaPath.segments path3) = (List.length (OkadaPath.nodes path3) - 1)%nat.
Proof.
  apply (segments_count path3); [apply built_path3 |].
  rewrite path3_eq. cbn. lia.
Defined.

(** C1, as stated, fails.  On the path with the single origin node (0,0),
    [addNode(0, 0)] raises after the node was appended; the next call,
    [addNode(1, 1)], returns and leaves the path with 3 nodes and 1 segment,
    not 2. *)
Lemma addNode_after_failure :
  exists p1 p2,
    OkadaPath.addNode 0 0 origin_path = (Raise ZeroDivisionError, p1)
    /\ OkadaPath.addNode 1 1 p1 = (Ok tt, p2)
    /\ OkadaPath.nodes p2 = [(0, 0); (0, 0); (1, 1)]
    /\ OkadaPath.segments p2 = [fresh_segment 0 0 1 1]
    /\ List.length (OkadaPath.segments p2) <> (List.length (OkadaPath.nodes p2) - 1)%nat.
Proof.
  eexists _, _. split; [| split].
  - apply (addNode_coincident origin_path [] 0 0). reflexivity.
  - apply (addNode_run _ [(0, 0)] (0, 0) 1 1); [reflexivity |].
    intros [= H]. lra.
  - cbn. repeat split. lia.
Qed.

(** ** Editing at the ends and in the middle of a path *)

(** C2.  What the code does at the two ends of a path whose last two nodes
    are [a] and [z] and whose first node is [b].  [moveNode] at the last
    node index, which equals [len(segments)], subscripts [segments] with
    that index and raises [IndexError] after the node was replaced.
    [insertNode] at index 0 calls [_moveSegment] with position [-1]: it
    reads the last node and overwrites the last segment, the one it has
    just appended for the new first pair, with the geometry of the pair
    (last node, new node). *)
Theorem end_positions_access (p : OkadaPath.t) (e n : R) (a b z : R * R)
    (l l0 : list (R * R)) :
  OkadaPath.nodes p = b :: l ->
  OkadaPath.nodes p = l0 ++ [a; z] ->
  List.length (OkadaPath.nodes p) = S (List.length (OkadaPath.segments p)) ->
  (e, n) <> b -> z <> (e, n) -> a <> (e, n) ->
  let last := List.length (OkadaPath.segments p) in
  PyList.norm_index (OkadaPath.segments p) (Z.of_nat last) = None
  /\ OkadaPath.moveNode (Z.of_nat last) e n p
     = (Raise IndexError, with_nodes p (<[last := (e, n)]> (OkadaPath.nodes p)))
  /\ OkadaPath.insertNode 0 e n p
     = (Ok tt,
        with_segments (with_nodes p ((e, n) :: OkadaPath.nodes p))
          (OkadaPath.segments p
           ++ [OkadaSegment.update (fresh_segment e n b.1 b.2) (geometry z.1 z.2 e n)])).
Proof.
  intros Hb Hz Hinv Hxb Hzx Hax last.
  assert (Hlen : List.length (OkadaPath.nodes p) = (List.length l0 + 2)%nat).
  { rewrite Hz, length_app. reflexivity. }
  split; [| split].
  - apply norm_index_out. lia.
  - apply (moveNode_last p last e n a); try (exact Hinv || exact Hax || reflexivity).
    + unfold last. lia.
    + rewrite Hz. rewrite lookup_app_r by (unfold last; lia).
      replace (last - 1 - List.length l0)%nat with 0%nat by (unfold last; lia).
      reflexivity.
  - apply (insertNode_first p e n b z l (l0 ++ [a])); try assumption.
    rewrite Hz, <- app_assoc. reflexivity.
Qed.

Lemma end_positions_access_witness :
  OkadaPath.moveNode 2 1 1 path3
  = (Raise IndexError, with_nodes path3 [(0, 0); (0, 1); (1, 1)])
  /\ OkadaPath.insertNode 0 1 1 path3
     = (Ok tt,
        with_segments (with_nodes path3 [(1, 1); (0, 0); (0, 1); (0, 2)])
          [fresh_segment 0 0 0 1; fresh_segment 0 1 0 2;
           OkadaSegment.update (fresh_segment 1 1 0 0) (geometry 0 2 1 1)]).
Proof.
  destruct (end_positions_access path3 1 1 (0, 1) (0, 0) (0, 2) [(0, 1); (0, 2)] [(0, 0)])
    as (_ & Hmove & Hins).
  - now rewrite path3_eq.
  - now rewrite path3_eq.
  - now rewrite path3_eq.
  - intros [= H]. lra.
  - intros [= H]. lra.
  - intros [= H]. lra.
  - rewrite path3_eq in *. split; [exact Hmove | exact Hins].
Defined.

(** C3.  What [moveNode] does at an interior node [k] (a node [a] before
    it, a node [b] after it): it returns, the node is replaced, and the
    only segment assigned to is the one at index [k], both times.  The
    segment at index [k - 1], which precedes the node, keeps its old
    geometry, and the segment at index [k], which follows the node, ends up
    with the geometry of the preceding pair ([a], new node).  The segment
    objects are reused (flag, slip, rake kept) and all other segments are
    untouched. *)
Theorem moveNode_interior_effect (p : OkadaPath.t) (k : nat) (e n : R)
    (a b : R * R) (s : OkadaSegment.t) :
  (0 < k)%nat ->
  OkadaPath.nodes p !! (k - 1)%nat = Some a ->
  OkadaPath.nodes p !! (k + 1)%nat = Some b ->
  OkadaPath.segments p !! k = Some s ->
  (e, n) <> b ->
  a <> (e, n) ->
  exists p' s',
    OkadaPath.moveNode (Z.of_nat k) e n p = (Ok tt, p')
    /\ OkadaPath.nodes p' = <[k := (e, n)]> (OkadaPath.nodes p)
    /\ (forall j, j <> k -> OkadaPath.segments p' !! j = OkadaPath.segments p !! j)
    /\ OkadaPath.segments p' !! (k - 1)%nat = OkadaPath.segments p !! (k - 1)%nat
    /\ OkadaPath.segments p' !! k = Some s'
    /\ s' = OkadaSegment.update s (geometry a.1 a.2 e n)
    /\ OkadaSource.northing (OkadaSegment.base s') = a.2 + (n - a.2) / 2
    /\ OkadaSource.easting (OkadaSegment.base s') = a.1 + (e - a.1) / 2
    /\ OkadaSegment.enabled s' = OkadaSegment.enabled s
    /\ OkadaSource.slip (OkadaSegment.base s') = OkadaSource.slip (OkadaSegment.base s)
    /\ OkadaSource.rake (OkadaSegment.base s') = OkadaSource.rake (OkadaSegment.base s).
Proof.
  intros Hk Ha Hb Hs Hxb Hax.
  pose proof (lookup_lt_Some _ _ _ Hs) as Hslen.
  destruct (update_geometry_keeps s a.1 a.2 e n) as (Hen & Hslip & Hrake & _).
  destruct (update_geometry_fields s a.1 a.2 e n) as (Hnorth & Heast & _).
  eexists _, (OkadaSegment.update s (geometry a.1 a.2 e n)).
  split; [apply (moveNode_interior p k e n a b s); assumption |].
  cbn [with_segments with_nodes OkadaPath.nodes OkadaPath.segments].
  repeat split; try assumption.
  - intros j Hj. now apply list_lookup_insert_ne.
  - apply list_lookup_insert_ne. lia.
  - now apply list_lookup_insert_eq.
Qed.

Lemma moveNode_interior_effect_witness :
  exists p' s',
    OkadaPath.moveNode 1 3 1 path3 = (Ok tt, p')
    /\ OkadaPath.nodes p' = [(0, 0); (3, 1); (0, 2)]
    /\ OkadaPath.segments p' !! 0%nat = Some (fresh_segment 0 0 0 1)
    /\ OkadaPath.segments p' !! 1%nat = Some s'
    /\ OkadaSource.northing (OkadaSegment.base s') = 0 + (1 - 0) / 2
    /\ OkadaSource.easting (OkadaSegment.base s') = 0 + (3 - 0) / 2.
Proof.
  destruct (moveNode_interior_effect path3 1 3 1 (0, 0) (0, 2) (fresh_segment 0 1 0 2))
    as (p' & s' & Hrun & Hnodes & _ & Hprev & Hk & _ & Hnorth & Heast & _).
  - lia.
  - now rewrite path3_eq.
  - now rewrite path3_eq.
  - now rewrite path3_eq.
  - intros [= H]. lra.
  - intros [= H]. lra.
  - exists p', s'. rewrite path3_eq in *. cbn in *. auto 10.
Defined.

(** C5.  What [insertNode] does at an interior index [k] that is not the
    last node index (node [a] before it, node [b] at it, segments [s] at
    [k - 1] and [t] at [k]): the node is inserted at [k] and the segment
    at [k - 1] is recomputed in place for the pair ([a], new node) with its
    flag kept, but the new segment for the pair (new node, [b]) is appended
    at the end of the sequence; position [k] still holds [t], the segment
    of the node pair that is now ([k + 1], [k + 2]). *)
Theorem insertNode_interior_effect (p : OkadaPath.t) (k : nat) (e n : R)
    (a b : R * R) (s t : OkadaSegment.t) :
  (0 < k)%nat ->
  OkadaPath.nodes p !! (k - 1)%nat = Some a ->
  OkadaPath.nodes p !! k = Some b ->
  OkadaPath.segments p !! (k - 1)%nat = Some s ->
  OkadaPath.segments p !! k = Some t ->
  (e, n) <> b ->
  a <> (e, n) ->
  exists p' s',
    OkadaPath.insertNode (Z.of_nat k) e n p = (Ok tt, p')
    /\ OkadaPath.nodes p' = take k (OkadaPath.nodes p) ++ (e, n) :: drop k (OkadaPath.nodes p)
    /\ List.length (OkadaPath.segments p') = S (List.length (OkadaPath.segments p))
    /\ OkadaPath.segments p' !! List.length (OkadaPath.segments p)
       = Some (fresh_segment e n b.1 b.2)
    /\ OkadaPath.segments p' !! k = Some t
    /\ OkadaPath.segments p' !! (k - 1)%nat = Some s'
    /\ s' = OkadaSegment.update s (geometry a.1 a.2 e n)
    /\ OkadaSegment.enabled s' = OkadaSegment.enabled s.
Proof.
  intros Hk Ha Hb Hs Ht Hxb Hax.
  pose proof (lookup_lt_Some _ _ _ Hs) as Hslen.
  pose proof (lookup_lt_Some _ _ _ Ht) as Htlen.
  destruct (update_geometry_keeps s a.1 a.2 e n) as (Hen & _).
  eexists _, (OkadaSegment.update s (geometry a.1 a.2 e n)).
  split; [apply (insertNode_interior p k e n a b s); assumption |].
  cbn [with_segments with_nodes OkadaPath.nodes OkadaPath.segments].
  repeat split; try assumption.
  - rewrite length_insert, length_app. cbn. lia.
  - rewrite list_lookup_insert_ne by lia.
    rewrite lookup_app_r by lia. now rewrite Nat.sub_diag.
  - rewrite list_lookup_insert_ne by lia.
    now rewrite lookup_app_l by exact Htlen.
  - apply list_lookup_insert_eq. rewrite length_app. cbn. lia.
Qed.

Lemma insertNode_interior_effect_witness :
  exists p',
    OkadaPath.insertNode 1 1 1 path3 = (Ok tt, p')
    /\ OkadaPath.nodes p' = [(0, 0); (1, 1); (0, 1); (0, 2)]
    /\ OkadaPath.segments p' !! 1%nat = Some (fresh_segment 0 1 0 2)
    /\ OkadaPath.segments p' !! 2%nat = Some (fresh_segment 1 1 0 1).
Proof.
  destruct (insertNode_interior_effect path3 1 1 1 (0, 0) (0, 1)
              (fresh_segment 0 0 0 1) (fresh_segment 0 1 0 2))
    as (p' & s' & Hrun & Hnodes & _ & Hlast & Hk & _).
  - lia.
  - now rewrite path3_eq.
  - now rewrite path3_eq.
  - now rewrite path3_eq.
  - now rewrite path3_eq.
  - intros [= H]. lra.
  - intros [= H]. lra.
  - exists p'. rewrite path3_eq in *. cbn in *. auto 10.
Defined.

(** ** The pipeline *)

Lemma disabled_path_eq :
  disabled_path
  = OkadaPath.mk 0 0 1.25 [(0, 0); (0, 1)]
      [OkadaSegment.setattr (fresh_segment 0 0 0 1) (OkadaSegment.Enabled (Some false))].
Proof.
  unfold disabled_path. rewrite path2_eq.
  now rewrite (set_enabled_run 0 _ _ 0 (fresh_segment 0 0 0 1)).
Qed.

Lemma vstack_empty_rows (n : nat) :
  Numpy.vstack (replicate (S n) (Numpy.Arr1 [])) = Ok (Numpy.Arr2 (replicate (S n) [])).
Proof.
  unfold Numpy.vstack. cbn [replicate map Numpy.atleast_2d].
  assert (Hall : forall m, forallb (fun m' => Nat.eqb (Numpy.ncols m') (Numpy.ncols [[]]))
                     (map Numpy.atleast_2d (replicate m (Numpy.Arr1 []))) = true).
  { induction m as [| m IH]; [reflexivity | cbn; exact IH]. }
  rewrite Hall. do 2 f_equal.
  assert (Hcat : forall m, concat (map Numpy.atleast_2d (replicate m (Numpy.Arr1 [])))
                           = replicate m ([] : list R)).
  { induction m as [| m IH]; [reflexivity | cbn; now rewrite IH]. }
  cbn. now rewrite Hcat.
Qed.

Lemma paths_without_rows (qs : list OkadaPath.t) :
  Forall (fun q => OkadaPath.enabled_rows (OkadaPath.segments q) = []) qs ->
  map dislocSource (map Path qs) = replicate (List.length qs) (Numpy.Arr1 []).
Proof.
  induction 1 as [| q qs Hq _ IH]; [reflexivity |].
  cbn [map List.length replicate]. rewrite IH. f_equal.
  cbn. now rewrite Hq.
Qed.

Lemma dislocSource_set_nu (v : R) (src : source) :
  dislocSource (set_nu v src) = dislocSource src.
Proof.
  destruct src as [[] | [[] ?] | p]; reflexivity.
Qed.

Lemma process_unfold disloc sources lst coords nthreads :
  DislocProcessor.process disloc (sources ++ [lst]) coords nthreads
  = match Numpy.vstack (map dislocSource (sources ++ [lst])) with
    | Raise e => (Raise e, [])
    | Ok src_arr =>
        (match disloc src_arr coords (nu lst) nthreads with
         | Raise e => Raise e
         | Ok res =>
             Ok {| DislocProcessor.processor_profile := [];
                   DislocProcessor.north := map (fun r => r.1.1) res;
                   DislocProcessor.east := map (fun r => r.1.2) res;
                   DislocProcessor.down := map (fun r => r.2) res |}
         end,
         [DislocProcessor.Build_solver_call src_arr coords (nu lst) nthreads])
    end.
Proof.
  unfold DislocProcessor.process. rewrite last_snoc. reflexivity.
Qed.

(** C9, as stated, fails: a path whose only segment is disabled is a
    source without enabled segments, and [process] neither fails nor skips
    the solver on it; the solver is called with a batch of one empty row. *)
Lemma process_disabled_path_calls_solver :
  Forall (fun src => has_enabled_segment src = false) [Path disabled_path]
  /\ DislocProcessor.process still_solver [Path disabled_path] [[0; 0]] 0
     = (Ok {| DislocProcessor.processor_profile := [];
              DislocProcessor.north := [0];
              DislocProcessor.east := [0];
              DislocProcessor.down := [0] |},
        [ {| DislocProcessor.call_src_arr := Numpy.Arr2 [[]];
             DislocProcessor.call_coords := [[0; 0]];
             DislocProcessor.call_nu := 1.25;
             DislocProcessor.call_nthreads := 0 |} ]).
Proof.
  rewrite disabled_path_eq. split.
  - repeat constructor.
  - reflexivity.
Qed.

(** C9, amended.  With an empty [sources] sequence [process] fails with
    the [ValueError] of [vstack] and makes no solver call.  With a
    non-empty sequence of paths none of which has an enabled segment it
    does not fail before the solver: it applies the solver, once, to a batch
    of one empty row per path, the coordinates, the [nu] of the last path
    and the thread count, and its outcome is what the solver answers. *)
Theorem process_without_enabled_segments
    (disloc : Numpy.ndarray -> list (list R) -> R -> Z -> result (list (R * R * R)))
    (coords : list (list R)) (nthreads : Z)
    (paths : list OkadaPath.t) (p : OkadaPath.t) :
  Forall (fun q => OkadaPath.enabled_rows (OkadaPath.segments q) = []) (paths ++ [p]) ->
  let batch := Numpy.Arr2 (replicate (S (List.length paths)) []) in
  DislocProcessor.process disloc [] coords nthreads = (Raise ValueError, [])
  /\ DislocProcessor.process disloc (map Path (paths ++ [p])) coords nthreads
     = (solver_outcome (disloc batch coords (OkadaPath.nu p) nthreads),
        [ {| DislocProcessor.call_src_arr := batch;
             DislocProcessor.call_coords := coords;
             DislocProcessor.call_nu := OkadaPath.nu p;
             DislocProcessor.call_nthreads := nthreads |} ]).
Proof.
  intros Hall batch. split; [reflexivity |].
  rewrite map_app. cbn [map]. rewrite process_unfold.
  change (map Path paths ++ [Path p]) with (map Path paths ++ map Path [p]).
  rewrite <- map_app, (paths_without_rows _ Hall).
  rewrite length_app. cbn [List.length].
  replace (List.length paths + 1)%nat with (S (List.length paths)) by lia.
  rewrite vstack_empty_rows. reflexivity.
Qed.

Lemma process_without_enabled_segments_witness :
  DislocProcessor.process echo_solver [] [[0; 0]] 4 = (Raise ValueError, [])
  /\ DislocProcessor.process echo_solver [Path disabled_path] [[0; 0]] 4
     = (Ok {| DislocProcessor.processor_profile := [];
              DislocProcessor.north := [1.25];
              DislocProcessor.east := [1];
              DislocProcessor.down := [4] |},
        [ {| DislocProcessor.call_src_arr := Numpy.Arr2 [[]];
             DislocProcessor.call_coords := [[0; 0]];
             DislocProcessor.call_nu := 1.25;
             DislocProcessor.call_nthreads := 4 |} ]).
Proof.
  assert (Hnu : OkadaPath.nu disabled_path = 1.25) by now rewrite disabled_path_eq.
  destruct (process_without_enabled_segments echo_solver [[0; 0]] 4 [] disabled_path)
    as [Hempty Hrun].
  - rewrite disabled_path_eq. repeat constructor.
  - split; [exact Hempty |]. cbn [map app] in Hrun. rewrite Hrun, Hnu. reflexivity.
Defined.

(** C10.  For a [sources] sequence of two or more elements ending in
    [lst]: whenever the stacking succeeds, [process] applies the solver to
    the stacked batch with the constant [lst.nu], its outcome is what the
    solver answers there, and that is its only solver call; when the
    stacking fails no call is made.  The [nu] of the other sources plays no
    part: assigning other values to them changes neither the stacking nor
    the outcome nor the call, so a batch of mixed [nu] is treated like a
    uniform one, and what the solver would do for another constant is
    irrelevant. *)
Theorem process_uses_last_nu
    (disloc : Numpy.ndarray -> list (list R) -> R -> Z -> result (list (R * R * R)))
    (front front' : list source) (lst : source) (coords : list (list R)) (nthreads : Z) :
  front <> [] ->
  Forall2 (fun src src' => exists v, src' = set_nu v src) front front' ->
  (forall src_arr,
     Numpy.vstack (map dislocSource (front ++ [lst])) = Ok src_arr ->
     DislocProcessor.process disloc (front ++ [lst]) coords nthreads
     = (solver_outcome (disloc src_arr coords (nu lst) nthreads),
        [DislocProcessor.Build_solver_call src_arr coords (nu lst) nthreads]))
  /\ (forall ex,
        Numpy.vstack (map dislocSource (front ++ [lst])) = Raise ex ->
        DislocProcessor.process disloc (front ++ [lst]) coords nthreads = (Raise ex, []))
  /\ (forall c, c ∈ (DislocProcessor.process disloc (front ++ [lst]) coords nthreads).2 ->
                DislocProcessor.call_nu c = nu lst)
  /\ Numpy.vstack (map dislocSource (front' ++ [lst]))
     = Numpy.vstack (map dislocSource (front ++ [lst]))
  /\ DislocProcessor.process disloc (front' ++ [lst]) coords nthreads
     = DislocProcessor.process disloc (front ++ [lst]) coords nthreads
  /\ (forall disloc',
        (forall src_arr, disloc' src_arr coords (nu lst) nthreads
                         = disloc src_arr coords (nu lst) nthreads) ->
        DislocProcessor.process disloc' (front ++ [lst]) coords nthreads
        = DislocProcessor.process disloc (front ++ [lst]) coords nthreads).
Proof.
  intros _ Hnu.
  assert (Hsame : map dislocSource front' = map dislocSource front).
  { induction Hnu as [| a b l l' [v ->] _ IH]; [reflexivity |].
    cbn [map]. rewrite IH. f_equal. apply dislocSource_set_nu. }
  split; [| split; [| split; [| split; [| split]]]].
  - intros arr Harr. rewrite process_unfold, Harr. reflexivity.
  - intros ex Hex. rewrite process_unfold, Hex. reflexivity.
  - intros c. rewrite process_unfold.
    destruct (Numpy.vstack _) as [arr | ex]; cbn.
    + intros Hc. apply list_elem_of_singleton in Hc. now subst c.
    + intros Hc. now apply not_elem_of_nil in Hc.
  - now rewrite !map_app, Hsame.
  - rewrite !process_unfold. now rewrite !map_app, Hsame.
  - intros disloc' Hagree. rewrite !process_unfold.
    destruct (Numpy.vstack _) as [arr | ex]; [| reflexivity].
    now rewrite Hagree.
Qed.

Lemma process_uses_last_nu_witness :
  DislocProcessor.process echo_solver [Patch patch_a; Patch patch_b] [[0; 0]] 4
  = (Ok {| DislocProcessor.processor_profile := [];
           DislocProcessor.north := [0.25];
           DislocProcessor.east := [INR 2];
           DislocProcessor.down := [4] |},
     [ {| DislocProcessor.call_src_arr :=
            Numpy.Arr2 [OkadaSource.dislocSource patch_a; OkadaSource.dislocSource patch_b];
          DislocProcessor.call_coords := [[0; 0]];
          DislocProcessor.call_nu := 0.25;
          DislocProcessor.call_nthreads := 4 |} ])
  /\ DislocProcessor.process echo_solver [set_nu 7 (Patch patch_a); Patch patch_b] [[0; 0]] 4
     = DislocProcessor.process echo_solver [Patch patch_a; Patch patch_b] [[0; 0]] 4.
Proof.
  destruct (process_uses_last_nu echo_solver [Patch patch_a] [set_nu 7 (Patch patch_a)]
              (Patch patch_b) [[0; 0]] 4) as (Hrun & _ & _ & _ & Hsame & _).
  - discriminate.
  - constructor; [exists 7; reflexivity | constructor].
  - split; [| exact Hsame].
    cbn [app] in Hrun. rewrite (Hrun _ eq_refl). reflexivity.
Defined.

(** ** The patch: slip components and outline *)

(** Neither the strike-slip nor the dip-slip entry of the source vector
    (entries 7 and 8) exceeds the slip in magnitude, whatever the rake; with
    rake 0 the strike-slip entry is the slip itself and the dip-slip entry
    is 0. *)
Theorem dislocSource_slip_bounds (s : OkadaSource.t) :
  exists ss ds,
    OkadaSource.dislocSource s !! 7%nat = Some ss
    /\ OkadaSource.dislocSource s !! 8%nat = Some ds
    /\ Rabs ss <= Rabs (OkadaSource.slip s)
    /\ Rabs ds <= Rabs (OkadaSource.slip s)
    /\ (OkadaSource.rake s = 0 -> ss = OkadaSource.slip s /\ ds = 0).
Proof.
  eexists _, _. split; [reflexivity |]. split; [reflexivity |].
  pose proof (Rabs_pos (OkadaSource.slip s)) as Hpos.
  assert (Hbound : forall c, -1 <= c <= 1 ->
            Rabs (c * OkadaSource.slip s) <= Rabs (OkadaSource.slip s)).
  { intros c Hc. rewrite Rabs_mult.
    assert (Rabs c <= 1) by (apply Rabs_le; lra). nra. }
  split; [apply Hbound, COS_bound |]. split; [apply Hbound, SIN_bound |].
  intros ->. replace (0 * d2r) with 0 by ring. rewrite cos_0, sin_0. lra.
Qed.

(** The outline of a patch striking due north (strike 0) is an
    axis-aligned rectangle: corners 0 and 1 lie at the patch easting, half
    the length north and south of the patch northing, and corners 2 and 3
    lie [cos(dip) * width] to the west of corners 1 and 0. *)
Theorem outline_north_striking (s : OkadaSource.t) :
  OkadaSource.strike s = 0 ->
  let e := OkadaSource.easting s in
  let n := OkadaSource.northing s in
  let half := OkadaSource.length s / 2 in
  let across := cos (OkadaSource.dip s * d2r) * OkadaSource.width s in
  OkadaSource.outline s
  = [ (e, half + n); (e, - half + n); (- across + e, - half + n); (- across + e, half + n) ].
Proof.
  intros Hs. unfold OkadaSource.outline. rewrite Hs.
  replace (0 * d2r) with 0 by ring. rewrite cos_0, sin_0.
  cbv zeta. repeat f_equal; field.
Qed.

Lemma outline_north_striking_witness :
  OkadaSource.outline (OkadaSource.mk 100 200 2000 5000 10000 0 45 90 1.5 1.25 0)
  = [ (100, 10000 / 2 + 200); (100, - (10000 / 2) + 200);
      (- (cos (45 * d2r) * 5000) + 100, - (10000 / 2) + 200);
      (- (cos (45 * d2r) * 5000) + 100, 10000 / 2 + 200) ].
Proof.
  apply (outline_north_striking (OkadaSource.mk 100 200 2000 5000 10000 0 45 90 1.5 1.25 0)).
  reflexivity.
Defined.

(** ** More on segment derivation *)


Lemma seg_length_pos e1 n1 e2 n2 : (e1, n1) <> (e2, n2) -> 0 < seg_length e1 n1 e2 n2.
Proof.
  intros Hne. pose proof (seg_length_nonneg e1 n1 e2 n2) as H.
  destruct (Req_dec_T (seg_length e1 n1 e2 n2) 0) as [H0 | H0]; [| lra].
  apply seg_length_zero in H0. contradiction.
Qed.

Lemma seg_width_pos (l : R) : 0 < l -> 0 < seg_width l.
Proof.
  intros Hl. unfold seg_width. destruct (Req_dec_T l 0); [lra |].
  assert (0 < Rpower l 0.66) by apply exp_pos. lra.
Qed.

Lemma seg_strike_range e1 n1 e2 n2 : 0 <= seg_strike e1 n1 e2 n2 <= 180.
Proof.
  unfold seg_strike, r2d.
  pose proof (acos_bound ((n2 - n1) / seg_length e1 n1 e2 n2)) as [Hlo Hhi].
  pose proof PI_RGT_0 as Hpi.
  split.
  - apply Rmult_le_pos; [exact Hlo |]. apply Rlt_le, Rdiv_lt_0_compat; lra.
  - apply Rmult_le_reg_r with (r := PI); [lra |].
    replace (acos ((n2 - n1) / seg_length e1 n1 e2 n2) * (180 / PI) * PI)
      with (acos ((n2 - n1) / seg_length e1 n1 e2 n2) * 180) by (field; lra).
    lra.
Qed.

Lemma newSegment_inv e1 n1 e2 n2 kw s :
  OkadaPath._newSegment e1 n1 e2 n2 kw = Ok s ->
  (e1, n1) <> (e2, n2) /\ s = OkadaSegment.update (fresh_segment e1 n1 e2 n2) kw.
Proof.
  intros H. destruct (pair_eq_dec_R (e1, n1) (e2, n2)) as [[= -> ->] | Hne].
  - rewrite newSegment_coincident in H. discriminate.
  - rewrite newSegment_ok in H by exact Hne. split; [exact Hne | congruence].
Qed.

(** [_newSegment] without keywords returns exactly when the two nodes
    differ, and the segment it returns is never degenerate: its length is
    the positive distance of the nodes, its width is positive, it sits at
    the midpoint, and it carries depth 0, slip 45, rake 90 and the class
    defaults dip 45, nu 1.25, opening 0, enabled. *)
Theorem newSegment_returns_proper_segment (e1 n1 e2 n2 : R) (s : OkadaSegment.t) :
  OkadaPath._newSegment e1 n1 e2 n2 [] = Ok s ->
  (e1, n1) <> (e2, n2)
  /\ 0 < OkadaSource.length (OkadaSegment.base s)
  /\ OkadaSource.length (OkadaSegment.base s) * OkadaSource.length (OkadaSegment.base s)
     = (e2 - e1) * (e2 - e1) + (n2 - n1) * (n2 - n1)
  /\ 0 < OkadaSource.width (OkadaSegment.base s)
  /\ OkadaSource.easting (OkadaSegment.base s) = (e1 + e2) / 2
  /\ OkadaSource.northing (OkadaSegment.base s) = (n1 + n2) / 2
  /\ OkadaSegment.base s
     = OkadaSource.mk (OkadaSource.easting (OkadaSegment.base s))
         (OkadaSource.northing (OkadaSegment.base s)) 0
         (OkadaSource.width (OkadaSegment.base s))
         (OkadaSource.length (OkadaSegment.base s))
         (OkadaSource.strike (OkadaSegment.base s)) 45 90 45 1.25 0
  /\ OkadaSegment.enabled s = Some true.
Proof.
  intros H. apply newSegment_inv in H. destruct H as [Hne ->].
  pose proof (seg_length_pos _ _ _ _ Hne) as Hpos.
  split; [exact Hne |]. unfold OkadaSegment.update. cbn.
  repeat split.
  - exact Hpos.
  - unfold seg_length. rewrite sqrt_sqrt by apply sum_squares_nonneg. ring.
  - now apply seg_width_pos.
  - field.
  - field.
Qed.

Lemma newSegment_returns_proper_segment_witness :
  0 < OkadaSource.length (OkadaSegment.base (fresh_segment 0 0 3 4))
  /\ OkadaSource.length (OkadaSegment.base (fresh_segment 0 0 3 4))
     * OkadaSource.length (OkadaSegment.base (fresh_segment 0 0 3 4))
     = (3 - 0) * (3 - 0) + (4 - 0) * (4 - 0).
Proof.
  destruct (newSegment_returns_proper_segment 0 0 3 4 (fresh_segment 0 0 3 4))
    as (_ & Hpos & Hsq & _).
  - apply newSegment_ok. intros [= H]. lra.
  - split; [exact Hpos | exact Hsq].
Defined.

(** The strike [_newSegment] derives always lies between 0 and 180
    degrees, and it does not tell east from west: the segment to the node
    mirrored across the north-south line through the first node has the
    same length, width and strike. *)
Theorem newSegment_strike_east_west (e1 n1 e2 n2 : R) :
  (e1, n1) <> (e2, n2) ->
  exists s m,
    OkadaPath._newSegment e1 n1 e2 n2 [] = Ok s
    /\ OkadaPath._newSegment e1 n1 (e1 - (e2 - e1)) n2 [] = Ok m
    /\ 0 <= OkadaSource.strike (OkadaSegment.base s) <= 180
    /\ OkadaSource.strike (OkadaSegment.base m) = OkadaSource.strike (OkadaSegment.base s)
    /\ OkadaSource.length (OkadaSegment.base m) = OkadaSource.length (OkadaSegment.base s)
    /\ OkadaSource.width (OkadaSegment.base m) = OkadaSource.width (OkadaSegment.base s).
Proof.
  intros Hne.
  assert (Hlen : seg_length e1 n1 (e1 - (e2 - e1)) n2 = seg_length e1 n1 e2 n2).
  { unfold seg_length. f_equal. ring. }
  assert (Hne' : (e1, n1) <> (e1 - (e2 - e1), n2)).
  { intros [= He Hn]. apply Hne. f_equal; lra. }
  exists (fresh_segment e1 n1 e2 n2), (fresh_segment e1 n1 (e1 - (e2 - e1)) n2).
  split; [now apply newSegment_ok |].
  split; [now apply newSegment_ok |].
  cbn. unfold seg_strike. rewrite Hlen.
  split; [apply seg_strike_range |]. auto.
Qed.

Lemma newSegment_strike_east_west_witness :
  exists s m,
    OkadaPath._newSegment 0 0 1000 0 [] = Ok s
    /\ OkadaPath._newSegment 0 0 (0 - (1000 - 0)) 0 [] = Ok m
    /\ 0 <= OkadaSource.strike (OkadaSegment.base s) <= 180
    /\ OkadaSource.strike (OkadaSegment.base m) = OkadaSource.strike (OkadaSegment.base s)
    /\ OkadaSource.length (OkadaSegment.base m) = OkadaSource.length (OkadaSegment.base s)
    /\ OkadaSource.width (OkadaSegment.base m) = OkadaSource.width (OkadaSegment.base s).
Proof. apply (newSegment_strike_east_west 0 0 1000 0). intros [= H]. lra. Defined.



(** ** Frame properties of the editing operations *)

Lemma kinematics_update_geometry (s : OkadaSegment.t) e1 n1 e2 n2 :
  kinematics (OkadaSegment.update s (geometry e1 n1 e2 n2)) = kinematics s.
Proof. destruct s as [[] ?]. reflexivity. Qed.

Lemma map_kinematics_insert (segs : list OkadaSegment.t) (k : nat) (s : OkadaSegment.t)
    e1 n1 e2 n2 :
  segs !! k = Some s ->
  map kinematics (<[k := OkadaSegment.update s (geometry e1 n1 e2 n2)]> segs)
  = map kinematics segs.
Proof.
  intros Hs. change (@map) with (@fmap list _).
  rewrite list_fmap_insert, kinematics_update_geometry.
  apply list_insert_id. now rewrite list_lookup_fmap, Hs.
Qed.

Lemma moveSegment_kinematics pos e1 n1 e2 n2 p r p' :
  OkadaPath._moveSegment pos e1 n1 e2 n2 p = (r, p') ->
  p' = with_segments p (OkadaPath.segments p')
  /\ map kinematics (OkadaPath.segments p') = map kinematics (OkadaPath.segments p).
Proof.
  destruct (pair_eq_dec_R (e1, n1) (e2, n2)) as [[= -> ->] | Hne].
  - rewrite moveSegment_coincident. intros [= _ <-]. now destruct p.
  - rewrite moveSegment_run by exact Hne.
    destruct (PyList.norm_index (OkadaPath.segments p) pos) as [k |].
    + destruct (OkadaPath.segments p !! k) as [s |] eqn:Hs; intros [= _ <-].
      * split; [reflexivity | now apply map_kinematics_insert].
      * split; [now destruct p | reflexivity].
    + intros [= _ <-]. split; [now destruct p | reflexivity].
Qed.

(** Whatever the position and the point, and whether it returns or
    raises, [moveNode] assigns nothing but geometry: afterwards every
    segment has the flag, depth, dip, rake, slip, nu and opening it had, the
    numbers of nodes and of segments are the same, and the origin and [nu] of
    the path are untouched. *)
Theorem moveNode_touches_geometry_only (pos : Z) (e n : R) (p : OkadaPath.t) :
  let p' := (OkadaPath.moveNode pos e n p).2 in
  map kinematics (OkadaPath.segments p') = map kinematics (OkadaPath.segments p)
  /\ List.length (OkadaPath.nodes p') = List.length (OkadaPath.nodes p)
  /\ OkadaPath.origin_easting p' = OkadaPath.origin_easting p
  /\ OkadaPath.origin_northing p' = OkadaPath.origin_northing p
  /\ OkadaPath.nu p' = OkadaPath.nu p.
Proof.
  destruct (OkadaPath.moveNode pos e n p) as [r p'] eqn:Hrun. cbn [snd].
  revert Hrun. unfold OkadaPath.moveNode. unfold_M. intros Hrun.
  repeat case_match; simplify_eq;
    repeat match goal with
      | Hm : OkadaPath._moveSegment _ _ _ _ _ _ = (_, ?q) |- _ =>
          apply moveSegment_kinematics in Hm;
          let Hq := fresh "Hq" in let Hk := fresh "Hk" in
          destruct Hm as [Hq Hk]; try rewrite Hq; clear Hq
      | Hs : PyList.setitem _ _ _ = Ok _ |- _ => apply setitem_length in Hs
      end;
    cbn in *; repeat split; congruence.
Qed.

(** [addNode] is append-only, whether it returns or raises: the new node
    is appended to the nodes, and the segments are the old ones followed by
    one new segment when the call returns and by nothing when it raises. *)
Theorem addNode_append_only (e n : R) (p : OkadaPath.t) :
  let r := (OkadaPath.addNode e n p).1 in
  let p' := (OkadaPath.addNode e n p).2 in
  OkadaPath.nodes p' = OkadaPath.nodes p ++ [(e, n)]
  /\ ((r = Ok tt /\ exists s, OkadaPath.segments p' = OkadaPath.segments p ++ [s])
      \/ (exists ex, r = Raise ex /\ OkadaPath.segments p' = OkadaPath.segments p)).
Proof.
  destruct (OkadaPath.addNode e n p) as [r p'] eqn:Hrun. cbn [fst snd].
  revert Hrun. unfold OkadaPath.addNode. unfold_M. intros Hrun.
  repeat case_match; simplify_eq; cbn;
    (split; [reflexivity |]); eauto.
Qed.

(** Appending the point of the current last node is rejected with
    [ZeroDivisionError], but the node stays appended: the path then has one
    node more and the same segments. *)
Theorem addNode_same_point (p : OkadaPath.t) (l : list (R * R)) (e n : R) :
  OkadaPath.nodes p = l ++ [(e, n)] ->
  exists p',
    OkadaPath.addNode e n p = (Raise ZeroDivisionError, p')
    /\ OkadaPath.nodes p' = l ++ [(e, n); (e, n)]
    /\ OkadaPath.segments p' = OkadaPath.segments p.
Proof.
  intros Hl. eexists. split; [apply (addNode_coincident p l e n Hl) |].
  cbn. rewrite Hl, <- app_assoc. split; reflexivity.
Qed.

Lemma addNode_same_point_witness :
  exists p',
    OkadaPath.addNode 0 0 origin_path = (Raise ZeroDivisionError, p')
    /\ OkadaPath.nodes p' = [] ++ [(0, 0); (0, 0)]
    /\ OkadaPath.segments p' = OkadaPath.segments origin_path.
Proof. apply (addNode_same_point origin_path [] 0 0). reflexivity. Defined.

(** [moveNode] with a position outside [-len(nodes), len(nodes)) raises
    [IndexError] and changes nothing. *)
Theorem moveNode_out_of_range (pos : Z) (e n : R) (p : OkadaPath.t) :
  (Z.of_nat (List.length (OkadaPath.nodes p)) <= pos
   \/ pos < - Z.of_nat (List.length (OkadaPath.nodes p)))%Z ->
  OkadaPath.moveNode pos e n p = (Raise IndexError, p).
Proof.
  intros Hpos. unfold OkadaPath.moveNode. unfold_M. cbn.
  unfold PyList.setitem, PyList.norm_index.
  repeat case_decide; try lia. reflexivity.
Qed.

Lemma moveNode_out_of_range_witness :
  OkadaPath.moveNode 3 5 5 path3 = (Raise IndexError, path3).
Proof.
  apply moveNode_out_of_range. rewrite path3_eq. cbn. lia.
Defined.

(** Moving the first node of a path with at least two nodes returns and
    recomputes the first segment, and only it, for the pair (new point,
    second node): the segment sits at their midpoint and has their distance
    as length; it keeps its flag and the attributes that are not geometry. *)
Theorem moveNode_first_effect (p : OkadaPath.t) (e n : R) (a b : R * R)
    (l : list (R * R)) (s : OkadaSegment.t) (segs : list OkadaSegment.t) :
  OkadaPath.nodes p = a :: b :: l ->
  OkadaPath.segments p = s :: segs ->
  (e, n) <> b ->
  exists p' s',
    OkadaPath.moveNode 0 e n p = (Ok tt, p')
    /\ OkadaPath.nodes p' = (e, n) :: b :: l
    /\ OkadaPath.segments p' = s' :: segs
    /\ OkadaSource.easting (OkadaSegment.base s') = (e + b.1) / 2
    /\ OkadaSource.northing (OkadaSegment.base s') = (n + b.2) / 2
    /\ OkadaSource.length (OkadaSegment.base s') = seg_length e n b.1 b.2
    /\ 0 < OkadaSource.length (OkadaSegment.base s')
    /\ kinematics s' = kinematics s.
Proof.
  intros Hn Hs Hxb.
  destruct (update_geometry_fields s e n b.1 b.2) as (Hnorth & Heast & Hlen & _).
  eexists _, (OkadaSegment.update s (geometry e n b.1 b.2)).
  split; [apply (moveNode_first p e n a b l s segs Hn Hs Hxb) |].
  cbn [with_segments with_nodes OkadaPath.nodes OkadaPath.segments].
  repeat split.
  - rewrite Heast. field.
  - rewrite Hnorth. field.
  - exact Hlen.
  - rewrite Hlen. apply seg_length_pos. now destruct b.
  - apply kinematics_update_geometry.
Qed.

Lemma moveNode_first_effect_witness :
  exists p' s',
    OkadaPath.moveNode 0 4 1 path3 = (Ok tt, p')
    /\ OkadaPath.nodes p' = [(4, 1); (0, 1); (0, 2)]
    /\ OkadaPath.segments p' = [s'; fresh_segment 0 1 0 2]
    /\ OkadaSource.easting (OkadaSegment.base s') = (4 + 0) / 2
    /\ OkadaSource.northing (OkadaSegment.base s') = (1 + 1) / 2.
Proof.
  destruct (moveNode_first_effect path3 4 1 (0, 0) (0, 1) [(0, 2)]
              (fresh_segment 0 0 0 1) [fresh_segment 0 1 0 2])
    as (p' & s' & Hrun & Hnodes & Hsegs & He & Hn & _).
  - now rewrite path3_eq.
  - now rewrite path3_eq.
  - intros [= H]. lra.
  - exists p', s'. auto 10.
Defined.

(** Moving a node onto the node that follows it is rejected with
    [ZeroDivisionError], but the node has already been moved: the nodes hold
    the same point twice and no segment was recomputed. *)
Theorem moveNode_onto_next (p : OkadaPath.t) (k : nat) (e n : R) :
  OkadaPath.nodes p !! (k + 1)%nat = Some (e, n) ->
  (k < List.length (OkadaPath.segments p))%nat ->
  OkadaPath.moveNode (Z.of_nat k) e n p
  = (Raise ZeroDivisionError, with_nodes p (<[k := (e, n)]> (OkadaPath.nodes p))).
Proof.
  intros Hb Hk.
  pose proof (lookup_lt_Some _ _ _ Hb) as Hlen.
  unfold OkadaPath.moveNode. unfold_M. cbn.
  rewrite (setitem_nat _ k) by (lia || reflexivity). cbn.
  unfold OkadaPath.len. cbn.
  case_decide; [| lia].
  unfold_M. cbn.
  rewrite (getitem_nat _ k (e, n)) by (reflexivity || (apply list_lookup_insert_eq; lia)).
  rewrite (getitem_nat _ (k + 1) (e, n))
    by (lia || (rewrite list_lookup_insert_ne by lia; exact Hb)).
  cbn. rewrite moveSegment_coincident. reflexivity.
Qed.

Lemma moveNode_onto_next_witness :
  OkadaPath.moveNode 0 0 1 path3
  = (Raise ZeroDivisionError, with_nodes path3 [(0, 1); (0, 1); (0, 2)]).
Proof.
  assert (Hb : OkadaPath.nodes path3 !! (0 + 1)%nat = Some (0, 1))
    by now rewrite path3_eq.
  assert (Hk : (0 < List.length (OkadaPath.segments path3))%nat)
    by (rewrite path3_eq; cbn; lia).
  pose proof (moveNode_onto_next path3 0 0 1 Hb Hk) as Hrun.
  rewrite path3_eq in *. exact Hrun.
Defined.

Lemma insert_past_end {A} (l : list A) (i : Z) (x : A) :
  (Z.of_nat (List.length l) <= i)%Z -> PyList.insert l i x = l ++ [x].
Proof.
  intros Hi. unfold PyList.insert. case_decide; [lia |].
  replace (Z.to_nat (Z.min i (Z.of_nat (List.length l)))) with (List.length l) by lia.
  now rewrite take_ge, drop_ge by lia.
Qed.

(** [insertNode] cannot append: with a position at or beyond the number of
    nodes the node is put at the end, then the lookup of the node after it
    raises [IndexError]; the node stays in the path without a segment. *)
Theorem insertNode_past_end (pos : Z) (e n : R) (p : OkadaPath.t) :
  (Z.of_nat (List.length (OkadaPath.nodes p)) <= pos)%Z ->
  OkadaPath.insertNode pos e n p
  = (Raise IndexError, with_nodes p (OkadaPath.nodes p ++ [(e, n)])).
Proof.
  intros Hpos. unfold OkadaPath.insertNode. unfold_M. cbn.
  rewrite insert_past_end by exact Hpos.
  destruct (decide (pos = Z.of_nat (List.length (OkadaPath.nodes p)))) as [-> | Hne].
  - rewrite (getitem_nat _ (List.length (OkadaPath.nodes p)) (e, n))
      by (reflexivity || (rewrite lookup_app_r by lia; now rewrite Nat.sub_diag)).
    rewrite getitem_out by (rewrite length_app; cbn; lia).
    reflexivity.
  - rewrite getitem_out by (rewrite length_app; cbn; lia).
    reflexivity.
Qed.

Lemma insertNode_past_end_witness :
  OkadaPath.insertNode 3 1 1 path3
  = (Raise IndexError, with_nodes path3 [(0, 0); (0, 1); (0, 2); (1, 1)]).
Proof.
  assert (Hpos : (Z.of_nat (List.length (OkadaPath.nodes path3)) <= 3)%Z)
    by (rewrite path3_eq; cbn; lia).
  pose proof (insertNode_past_end 3 1 1 path3 Hpos) as Hrun.
  rewrite path3_eq in *. exact Hrun.
Defined.

(** Inserting a node before the last node is the one interior insertion
    that keeps the segments in node order: the appended new segment lands at
    the index of the inserted node, and the segment before it is recomputed
    in place for the pair (previous node, new node). *)
Theorem insertNode_before_last (p : OkadaPath.t) (k : nat) (e n : R)
    (a b : R * R) (s : OkadaSegment.t) :
  k = List.length (OkadaPath.segments p) ->
  (0 < k)%nat ->
  OkadaPath.nodes p !! (k - 1)%nat = Some a ->
  OkadaPath.nodes p !! k = Some b ->
  OkadaPath.segments p !! (k - 1)%nat = Some s ->
  (e, n) <> b ->
  a <> (e, n) ->
  exists p',
    OkadaPath.insertNode (Z.of_nat k) e n p = (Ok tt, p')
    /\ OkadaPath.nodes p' !! (k - 1)%nat = Some a
    /\ OkadaPath.nodes p' !! k = Some (e, n)
    /\ OkadaPath.nodes p' !! (k + 1)%nat = Some b
    /\ OkadaPath.segments p' !! (k - 1)%nat
       = Some (OkadaSegment.update s (geometry a.1 a.2 e n))
    /\ OkadaPath.segments p' !! k = Some (fresh_segment e n b.1 b.2)
    /\ (forall j, (j < k - 1)%nat -> OkadaPath.segments p' !! j = OkadaPath.segments p !! j)
    /\ List.length (OkadaPath.segments p') = S k.
Proof.
  intros Hk Hpos Ha Hb Hs Hxb Hax.
  pose proof (lookup_lt_Some _ _ _ Hb) as Hlen.
  eexists. split; [apply (insertNode_interior p k e n a b s); assumption |].
  cbn [with_segments with_nodes OkadaPath.nodes OkadaPath.segments].
  repeat split.
  - rewrite inserted_lookup_lt by lia. exact Ha.
  - apply inserted_lookup_eq. lia.
  - replace (k + 1)%nat with (S k) by lia. rewrite inserted_lookup_gt by lia. exact Hb.
  - apply list_lookup_insert_eq. rewrite length_app. cbn. lia.
  - rewrite list_lookup_insert_ne by lia.
    rewrite lookup_app_r by lia. rewrite Hk, Nat.sub_diag. reflexivity.
  - intros j Hj. rewrite list_lookup_insert_ne by lia.
    apply lookup_app_l. lia.
  - rewrite length_insert, length_app. cbn. lia.
Qed.

Lemma insertNode_before_last_witness :
  exists p',
    OkadaPath.insertNode 2 1 1 path3 = (Ok tt, p')
    /\ OkadaPath.nodes p' !! 2%nat = Some (1, 1)
    /\ OkadaPath.nodes p' !! 3%nat = Some (0, 2)
    /\ OkadaPath.segments p' !! 2%nat = Some (fresh_segment 1 1 0 2).
Proof.
  destruct (insertNode_before_last path3 2 1 1 (0, 1) (0, 2) (fresh_segment 0 1 0 2))
    as (p' & Hrun & _ & Hn2 & Hn3 & _ & Hs2 & _).
  - now rewrite path3_eq.
  - lia.
  - now rewrite path3_eq.
  - now rewrite path3_eq.
  - now rewrite path3_eq.
  - intros [= H]. lra.
  - intros [= H]. lra.
  - exists p'. auto.
Defined.

Lemma norm_index_length {A B} (l : list A) (l' : list B) (i : Z) :
  List.length l = List.length l' -> PyList.norm_index l i = PyList.norm_index l' i.
Proof. intros H. unfold PyList.norm_index. now rewrite H. Qed.

Lemma setattr_enabled_twice (s : OkadaSegment.t) (b : option bool) :
  OkadaSegment.setattr (OkadaSegment.setattr s (OkadaSegment.Enabled b))
    (OkadaSegment.Enabled (OkadaSegment.enabled s)) = s.
Proof. destruct s as [[] ?]. reflexivity. Qed.

(** Disabling a segment and then assigning its previous flag again gives
    back the path exactly as it was; nothing else was touched in between. *)
Theorem set_enabled_round_trip (p : OkadaPath.t) (i : Z) (k : nat) (s : OkadaSegment.t) :
  PyList.norm_index (OkadaPath.segments p) i = Some k ->
  OkadaPath.segments p !! k = Some s ->
  OkadaPath.bind (OkadaPath.set_enabled i (Some false))
    (fun _ => OkadaPath.set_enabled i (OkadaSegment.enabled s)) p
  = (Ok tt, p).
Proof.
  intros Hk Hs.
  pose proof (lookup_lt_Some _ _ _ Hs) as Hlt.
  unfold OkadaPath.bind.
  rewrite (set_enabled_run i (Some false) p k s Hk Hs).
  rewrite (set_enabled_run i _ _ k (OkadaSegment.setattr s (OkadaSegment.Enabled (Some false)))).
  - cbn [with_segments OkadaPath.segments OkadaPath.nodes OkadaPath.nu
         OkadaPath.origin_easting OkadaPath.origin_northing].
    rewrite list_insert_insert_eq, setattr_enabled_twice.
    rewrite (list_insert_id _ k s Hs). now destruct p.
  - cbn [with_segments OkadaPath.segments].
    rewrite <- Hk. apply norm_index_length. apply length_insert.
  - cbn [with_segments OkadaPath.segments]. now apply list_lookup_insert_eq.
Qed.

Lemma set_enabled_round_trip_witness :
  OkadaPath.bind (OkadaPath.set_enabled (-1) (Some false))
    (fun _ => OkadaPath.set_enabled (-1) (Some true)) path3
  = (Ok tt, path3).
Proof.
  assert (Hk : PyList.norm_index (OkadaPath.segments path3) (-1) = Some 1%nat)
    by now rewrite path3_eq.
  assert (Hs : OkadaPath.segments path3 !! 1%nat = Some (fresh_segment 0 1 0 2))
    by now rewrite path3_eq.
  exact (set_enabled_round_trip path3 (-1) 1 (fresh_segment 0 1 0 2) Hk Hs).
Defined.

(** ** What every segment of a built path looks like *)

Lemma newSegment_proper e1 n1 e2 n2 s :
  OkadaPath._newSegment e1 n1 e2 n2 [] = Ok s -> proper_segment s.
Proof.
  intros H. apply newSegment_inv in H. destruct H as [Hne ->].
  split; [reflexivity |]. now apply seg_length_pos.
Qed.

Lemma update_geometry_proper s e1 n1 e2 n2 :
  kinematics s = (Some true, 0, 45, 90, 45, 1.25, 0) ->
  (e1, n1) <> (e2, n2) ->
  proper_segment (OkadaSegment.update s (geometry e1 n1 e2 n2)).
Proof.
  intros Hkin Hne. split.
  - now rewrite kinematics_update_geometry.
  - destruct (update_geometry_fields s e1 n1 e2 n2) as (_ & _ & Hlen & _).
    rewrite Hlen. now apply seg_length_pos.
Qed.

Lemma moveSegment_proper pos e1 n1 e2 n2 p r p' :
  Forall proper_segment (OkadaPath.segments p) ->
  OkadaPath._moveSegment pos e1 n1 e2 n2 p = (r, p') ->
  Forall proper_segment (OkadaPath.segments p').
Proof.
  intros Hall.
  destruct (pair_eq_dec_R (e1, n1) (e2, n2)) as [[= -> ->] | Hne].
  - rewrite moveSegment_coincident. now intros [= _ <-].
  - rewrite moveSegment_run by exact Hne.
    destruct (PyList.norm_index (OkadaPath.segments p) pos) as [k |].
    + destruct (OkadaPath.segments p !! k) as [s |] eqn:Hs; intros [= _ <-]; [| exact Hall].
      cbn. apply Forall_insert; [exact Hall |].
      apply update_geometry_proper; [| exact Hne].
      eapply Forall_lookup_1 in Hall; [| exact Hs]. apply Hall.
    + now intros [= _ <-].
Qed.

Lemma addNode_proper e n p p' :
  Forall proper_segment (OkadaPath.segments p) ->
  OkadaPath.addNode e n p = (Ok tt, p') ->
  Forall proper_segment (OkadaPath.segments p').
Proof.
  intros Hall. unfold OkadaPath.addNode. unfold_M. intros H.
  repeat case_match; simplify_eq. cbn.
  apply Forall_app. split; [assumption |].
  constructor; [| constructor]. eauto using newSegment_proper.
Qed.

Lemma insertNode_proper pos e n p p' :
  Forall proper_segment (OkadaPath.segments p) ->
  OkadaPath.insertNode pos e n p = (Ok tt, p') ->
  Forall proper_segment (OkadaPath.segments p').
Proof.
  intros Hall. unfold OkadaPath.insertNode. unfold_M. intros H.
  repeat case_match; simplify_eq.
  match goal with
  | Hm : OkadaPath._moveSegment _ _ _ _ _ _ = _ |- _ =>
      apply moveSegment_proper in Hm; [exact Hm |]
  end.
  cbn. apply Forall_app. split; [assumption |].
  constructor; [| constructor]. eauto using newSegment_proper.
Qed.

Lemma moveNode_proper pos e n p r p' :
  Forall proper_segment (OkadaPath.segments p) ->
  OkadaPath.moveNode pos e n p = (r, p') ->
  Forall proper_segment (OkadaPath.segments p').
Proof.
  intros Hall. unfold OkadaPath.moveNode. unfold_M. intros H.
  repeat case_match; simplify_eq;
    repeat match goal with
      | Hm : OkadaPath._moveSegment _ _ _ _ _ _ = _ |- _ =>
          apply moveSegment_proper in Hm; [| cbn; assumption]
      end;
    cbn in *; assumption.
Qed.

Lemma proper_segment_row (s : OkadaSegment.t) :
  proper_segment s ->
  OkadaSegment.dislocSource s
  = [ OkadaSource.length (OkadaSegment.base s); OkadaSource.width (OkadaSegment.base s);
      0; - 45; OkadaSource.strike (OkadaSegment.base s);
      OkadaSource.easting (OkadaSegment.base s); OkadaSource.northing (OkadaSegment.base s);
      cos (90 * d2r) * 45; sin (90 * d2r) * 45; 0 ].
Proof.
  intros [Hkin _]. destruct s as [[e n d w l st dp rk sl nu op] en].
  unfold kinematics in Hkin. cbn in Hkin. injection Hkin as -> -> -> -> -> -> ->.
  unfold OkadaSegment.dislocSource, OkadaSource.dislocSource. cbn.
  destruct (Req_dec_T 45 90) as [H | _]; [lra | reflexivity].
Qed.

(** Every segment of a path built from a single origin node by [addNode]
    and [insertNode] calls that returned and by any [moveNode] calls is
    enabled, has a positive length, and still carries the creation values
    depth 0, dip 45, rake 90, slip 45, nu 1.25 and opening 0; the path's own
    [nu] is not passed on to its segments.  So the path's [dislocSource()]
    has one row per segment, in order, and in every row the depth entry is
    0, the dip entry is -45 (never the perturbed value), the slip entries
    are those of rake 90 and slip 45, and the opening entry is 0. *)
Theorem built_segments_proper (p : OkadaPath.t) :
  built p ->
  Forall proper_segment (OkadaPath.segments p)
  /\ OkadaPath.enabled_rows (OkadaPath.segments p)
     = map OkadaSegment.dislocSource (OkadaPath.segments p)
  /\ Forall (fun s =>
       OkadaSegment.dislocSource s
       = [ OkadaSource.length (OkadaSegment.base s); OkadaSource.width (OkadaSegment.base s);
           0; - 45; OkadaSource.strike (OkadaSegment.base s);
           OkadaSource.easting (OkadaSegment.base s);
           OkadaSource.northing (OkadaSegment.base s);
           cos (90 * d2r) * 45; sin (90 * d2r) * 45; 0 ]) (OkadaPath.segments p).
Proof.
  intros Hb.
  assert (Hall : Forall proper_segment (OkadaPath.segments p)).
  { induction Hb as [oe on nu | p e n p' _ IH Hrun | p pos e n p' _ IH Hrun
                    | p pos e n r p' _ IH Hrun].
    - constructor.
    - eapply addNode_proper; eassumption.
    - eapply insertNode_proper; eassumption.
    - eapply moveNode_proper; eassumption. }
  split; [exact Hall |]. split.
  - unfold OkadaPath.enabled_rows. f_equal.
    induction Hall as [| s l [Hkin _] _ IH]; [reflexivity |].
    assert (Hen : OkadaSegment.is_enabled s = true).
    { unfold OkadaSegment.is_enabled. unfold kinematics in Hkin.
      injection Hkin as -> _ _ _ _ _ _. reflexivity. }
    cbn [List.filter]. now rewrite Hen, IH.
  - eapply Forall_impl; [exact Hall |]. apply proper_segment_row.
Qed.

Lemma built_segments_proper_witness :
  Forall proper_segment (OkadaPath.segments path3)
  /\ OkadaPath.enabled_rows (OkadaPath.segments path3)
     = map OkadaSegment.dislocSource (OkadaPath.segments path3).
Proof.
  destruct (built_segments_proper path3 built_path3) as (Hall & Hrows & _).
  split; assumption.
Defined.

(** Recomputing is rebuilding: when the segment at a position is one that
    [_newSegment] returned without keywords, [_moveSegment] to another pair
    of distinct points leaves there exactly the segment [_newSegment] returns
    for that pair. *)
Theorem moveSegment_rebuilds (p : OkadaPath.t) (pos : Z) (k : nat)
    (a1 a2 b1 b2 c1 c2 d1 d2 : R) (s : OkadaSegment.t) :
  PyList.norm_index (OkadaPath.segments p) pos = Some k ->
  OkadaPath.segments p !! k = Some s ->
  OkadaPath._newSegment a1 a2 b1 b2 [] = Ok s ->
  (c1, c2) <> (d1, d2) ->
  exists p' s',
    OkadaPath._moveSegment pos c1 c2 d1 d2 p = (Ok tt, p')
    /\ OkadaPath.segments p' !! k = Some s'
    /\ OkadaPath._newSegment c1 c2 d1 d2 [] = Ok s'
    /\ OkadaPath.nodes p' = OkadaPath.nodes p
    /\ (forall j, j <> k -> OkadaPath.segments p' !! j = OkadaPath.segments p !! j).
Proof.
  intros Hk Hs Hnew Hne.
  apply newSegment_inv in Hnew. destruct Hnew as [_ ->].
  pose proof (lookup_lt_Some _ _ _ Hs) as Hlt.
  eexists _, (fresh_segment c1 c2 d1 d2).
  rewrite moveSegment_run by exact Hne. rewrite Hk, Hs.
  split; [reflexivity |].
  cbn [with_segments OkadaPath.segments OkadaPath.nodes].
  repeat split.
  - now rewrite list_lookup_insert_eq.
  - now apply newSegment_ok.
  - intros j Hj. now apply list_lookup_insert_ne.
Qed.

Lemma moveSegment_rebuilds_witness :
  exists p' s',
    OkadaPath._moveSegment (-1) 5 5 7 9 path3 = (Ok tt, p')
    /\ OkadaPath.segments p' !! 1%nat = Some s'
    /\ OkadaPath._newSegment 5 5 7 9 [] = Ok s'.
Proof.
  destruct (moveSegment_rebuilds path3 (-1) 1 0 1 0 2 5 5 7 9 (fresh_segment 0 1 0 2))
    as (p' & s' & Hrun & Hs' & Hnew & _).
  - now rewrite path3_eq.
  - now rewrite path3_eq.
  - apply newSegment_ok. intros [= H]. lra.
  - intros [= H]. lra.
  - exists p', s'. auto.
Defined.

(** ** Stacking the sources *)

Lemma dislocSource_length (s : OkadaSource.t) :
  List.length (OkadaSource.dislocSource s) = 10%nat.
Proof. reflexivity. Qed.

Lemma enabled_rows_width (segs : list OkadaSegment.t) :
  Forall (fun r => List.length r = 10%nat) (OkadaPath.enabled_rows segs).
Proof.
  unfold OkadaPath.enabled_rows. apply Forall_forall. intros r Hr.
  apply list_elem_of_In, in_map_iff in Hr. destruct Hr as (s & <- & _). reflexivity.
Qed.

Lemma source_rows_width (src : source) :
  Forall (fun r => List.length r = 10%nat) (source_rows src).
Proof.
  destruct src as [s | s | p]; cbn.
  - repeat constructor.
  - repeat constructor.
  - apply enabled_rows_width.
Qed.

Lemma atleast_2d_source_rows (src : source) :
  source_rows src <> [] ->
  Numpy.atleast_2d (dislocSource src) = source_rows src
  /\ Numpy.ncols (source_rows src) = 10%nat.
Proof.
  intros Hne. pose proof (source_rows_width src) as Hw.
  destruct src as [s | s | p]; cbn in *.
  - split; reflexivity.
  - split; reflexivity.
  - destruct (OkadaPath.enabled_rows (OkadaPath.segments p)) as [| r rows]; [contradiction |].
    split; [reflexivity |]. cbn. now inversion Hw.
Qed.

Lemma atleast_2d_empty_path (q : OkadaPath.t) :
  OkadaPath.enabled_rows (OkadaPath.segments q) = [] ->
  Numpy.atleast_2d (dislocSource (Path q)) = [[]].
Proof. intros H. cbn. now rewrite H. Qed.

Lemma vstack_cases (arrays : list Numpy.ndarray) :
  Numpy.vstack arrays = Raise ValueError
  \/ (Numpy.vstack arrays = Ok (Numpy.Arr2 (concat (map Numpy.atleast_2d arrays)))
      /\ exists a rest, arrays = a :: rest
         /\ Forall (fun b => Numpy.ncols (Numpy.atleast_2d b) = Numpy.ncols (Numpy.atleast_2d a))
              rest).
Proof.
  unfold Numpy.vstack. destruct arrays as [| a rest]; [left; reflexivity |].
  cbn [map].
  destruct (forallb _ _) eqn:Hall; [right | left; reflexivity].
  split; [reflexivity |]. exists a, rest. split; [reflexivity |].
  rewrite forallb_forall in Hall. apply Forall_forall. intros b Hb.
  apply Nat.eqb_eq, Hall, in_map, list_elem_of_In, Hb.
Qed.

Lemma vstack_same_width (arrays : list Numpy.ndarray) (w : nat) :
  arrays <> [] ->
  Forall (fun b => Numpy.ncols (Numpy.atleast_2d b) = w) arrays ->
  Numpy.vstack arrays = Ok (Numpy.Arr2 (concat (map Numpy.atleast_2d arrays))).
Proof.
  intros Hne Hall. unfold Numpy.vstack.
  destruct arrays as [| a rest]; [contradiction |].
  cbn [map]. inversion Hall as [| ? ? Ha Hrest]; subst.
  assert (Hb : forallb (fun m' => Nat.eqb (Numpy.ncols m') (Numpy.ncols (Numpy.atleast_2d a)))
                 (map Numpy.atleast_2d rest) = true).
  { apply forallb_forall. intros m Hm. apply in_map_iff in Hm.
    destruct Hm as (b & <- & Hb). apply Nat.eqb_eq.
    rewrite Forall_forall in Hrest. apply list_elem_of_In in Hb. now apply Hrest. }
  now rewrite Hb.
Qed.

(** When every source has at least one source vector (a patch, a segment
    passed on its own, or a path with an enabled segment), [process] applies
    the solver, once, to the matrix of all source vectors in
    source-then-segment order, every row of ten entries, the coordinates and
    thread count it was given and the [nu] of the last source; its outcome is
    what the solver answers there. *)
Theorem process_stacks_rows
    (disloc : Numpy.ndarray -> list (list R) -> R -> Z -> result (list (R * R * R)))
    (front : list source) (lst : source) (coords : list (list R)) (nthreads : Z) :
  Forall (fun src => source_rows src <> []) (front ++ [lst]) ->
  let batch := Numpy.Arr2 (concat (map source_rows (front ++ [lst]))) in
  DislocProcessor.process disloc (front ++ [lst]) coords nthreads
  = (solver_outcome (disloc batch coords (nu lst) nthreads),
     [ {| DislocProcessor.call_src_arr := batch;
          DislocProcessor.call_coords := coords;
          DislocProcessor.call_nu := nu lst;
          DislocProcessor.call_nthreads := nthreads |} ])
  /\ Forall (fun r => List.length r = 10%nat) (concat (map source_rows (front ++ [lst])))
  /\ concat (map source_rows (front ++ [lst])) <> [].
Proof.
  intros Hall batch. unfold batch.
  assert (Hmaps : map Numpy.atleast_2d (map dislocSource (front ++ [lst]))
                  = map source_rows (front ++ [lst])).
  { rewrite map_map. apply map_ext_in. intros src Hsrc.
    rewrite Forall_forall in Hall. apply atleast_2d_source_rows, Hall.
    now apply list_elem_of_In. }
  split; [| split].
  - rewrite process_unfold.
    rewrite (vstack_same_width _ 10).
    + now rewrite Hmaps.
    + destruct front; discriminate.
    + apply Forall_forall. intros a Ha.
      apply list_elem_of_In, in_map_iff in Ha. destruct Ha as (src & <- & Hsrc).
      rewrite Forall_forall in Hall. apply list_elem_of_In in Hsrc.
      destruct (atleast_2d_source_rows src (Hall src Hsrc)) as [-> Hw]. exact Hw.
  - apply Forall_concat, Forall_forall. intros rows Hrows.
    apply list_elem_of_In, in_map_iff in Hrows. destruct Hrows as (src & <- & _).
    apply source_rows_width.
  - rewrite map_app, concat_app. cbn [map concat]. rewrite app_nil_r.
    apply Forall_app in Hall. destruct Hall as [_ Hl]. inversion Hl; subst.
    destruct (source_rows lst); [contradiction |].
    intros Heq. apply app_eq_nil in Heq. destruct Heq; discriminate.
Qed.

Lemma process_stacks_rows_witness :
  DislocProcessor.process echo_solver ([Patch patch_a; Path path3] ++ [Patch patch_b])
    [[0; 0]] 2
  = (Ok {| DislocProcessor.processor_profile := [];
           DislocProcessor.north := [0.25];
           DislocProcessor.east := [INR 4];
           DislocProcessor.down := [2] |},
     [ {| DislocProcessor.call_src_arr :=
            Numpy.Arr2 [ OkadaSource.dislocSource patch_a;
                         OkadaSegment.dislocSource (fresh_segment 0 0 0 1);
                         OkadaSegment.dislocSource (fresh_segment 0 1 0 2);
                         OkadaSource.dislocSource patch_b ];
          DislocProcessor.call_coords := [[0; 0]];
          DislocProcessor.call_nu := 0.25;
          DislocProcessor.call_nthreads := 2 |} ]).
Proof.
  destruct (process_stacks_rows echo_solver [Patch patch_a; Path path3] (Patch patch_b)
              [[0; 0]] 2) as (Hcall & _).
  - repeat constructor; try discriminate. cbn. now rewrite path3_eq.
  - rewrite Hcall. cbn [map app concat source_rows]. rewrite path3_eq. reflexivity.
Defined.

(** A batch that mixes a source having source vectors with a path that has
    no enabled segment is rejected before the solver: the path contributes a
    row without columns, [vstack] raises [ValueError] on the unequal widths,
    and no solver call is made. *)
Theorem process_mixed_widths
    (disloc : Numpy.ndarray -> list (list R) -> R -> Z -> result (list (R * R * R)))
    (sources : list source) (src : source) (q : OkadaPath.t)
    (coords : list (list R)) (nthreads : Z) :
  src ∈ sources ->
  source_rows src <> [] ->
  Path q ∈ sources ->
  OkadaPath.enabled_rows (OkadaPath.segments q) = [] ->
  DislocProcessor.process disloc sources coords nthreads = (Raise ValueError, []).
Proof.
  intros Hsrc Hrows Hq Hempty.
  unfold DislocProcessor.process.
  destruct (vstack_cases (map dislocSource sources)) as [-> | [_ (a & rest & Heq & Hall)]];
    [reflexivity | exfalso].
  assert (Hw : forall s, s ∈ sources ->
            Numpy.ncols (Numpy.atleast_2d (dislocSource s)) = Numpy.ncols (Numpy.atleast_2d a)).
  { intros s Hs. apply (list_elem_of_fmap_2 dislocSource) in Hs.
    change (fmap dislocSource sources) with (map dislocSource sources) in Hs.
    rewrite Heq in Hs. apply elem_of_cons in Hs. destruct Hs as [-> | Hs]; [reflexivity |].
    rewrite Forall_forall in Hall. now apply Hall. }
  pose proof (Hw _ Hsrc) as H1. pose proof (Hw _ Hq) as H2.
  destruct (atleast_2d_source_rows src Hrows) as [E1 W1].
  rewrite E1, W1 in H1. rewrite (atleast_2d_empty_path q Hempty) in H2.
  cbn in H2. congruence.
Qed.

Lemma process_mixed_widths_witness :
  DislocProcessor.process still_solver [Patch patch_a; Path disabled_path] [[0; 0]] 0
  = (Raise ValueError, []).
Proof.
  apply (process_mixed_widths still_solver _ (Patch patch_a) disabled_path).
  - apply list_elem_of_here.
  - discriminate.
  - apply list_elem_of_further, list_elem_of_here.
  - now rewrite disabled_path_eq.
Defined.

(** When the stacking succeeds, the outcome of [process] is the solver's:
    an error of the solver is passed on unchanged, and a matrix it returns
    is split into its columns, [north], [east] and [down] in this order, row
    [i] of the matrix giving entry [i] of each; [processor_profile] is
    empty.  In both cases exactly one solver call was made. *)
Theorem process_result_columns
    (disloc : Numpy.ndarray -> list (list R) -> R -> Z -> result (list (R * R * R)))
    (front : list source) (lst : source) (coords : list (list R)) (nthreads : Z)
    (src_arr : Numpy.ndarray) :
  Numpy.vstack (map dislocSource (front ++ [lst])) = Ok src_arr ->
  let out := DislocProcessor.process disloc (front ++ [lst]) coords nthreads in
  List.length out.2 = 1%nat
  /\ (forall ex, disloc src_arr coords (nu lst) nthreads = Raise ex -> out.1 = Raise ex)
  /\ (forall res, disloc src_arr coords (nu lst) nthreads = Ok res ->
        exists r, out.1 = Ok r
          /\ DislocProcessor.processor_profile r = []
          /\ List.length (DislocProcessor.north r) = List.length res
          /\ List.length (DislocProcessor.east r) = List.length res
          /\ List.length (DislocProcessor.down r) = List.length res
          /\ forall i dn de dd, res !! i = Some (dn, de, dd) ->
               DislocProcessor.north r !! i = Some dn
               /\ DislocProcessor.east r !! i = Some de
               /\ DislocProcessor.down r !! i = Some dd).
Proof.
  intros Hstack out. unfold out. rewrite process_unfold, Hstack. cbn [fst snd].
  split; [reflexivity |]. split.
  - intros ex ->. reflexivity.
  - intros res ->. eexists. split; [reflexivity |]. cbn.
    rewrite !length_map. repeat split.
    + change (@map) with (@fmap list _). now rewrite list_lookup_fmap, H.
    + change (@map) with (@fmap list _). now rewrite list_lookup_fmap, H.
    + change (@map) with (@fmap list _). now rewrite list_lookup_fmap, H.
Qed.

Lemma process_result_columns_witness :
  List.length
    (DislocProcessor.process still_solver ([Patch patch_a] ++ [Patch patch_b]) [[0; 0]] 0).2
  = 1%nat.
Proof.
  destruct (process_result_columns still_solver [Patch patch_a] (Patch patch_b) [[0; 0]] 0
              (Numpy.Arr2 [OkadaSource.dislocSource patch_a; OkadaSource.dislocSource patch_b]))
    as (Hone & _).
  - reflexivity.
  - exact Hone.
Defined.

(** [process] does not look at the [enabled] flag of a segment passed as
    a source on its own: the solver is applied to its source vector even
    when the segment is disabled, while for a path holding only that
    disabled segment the solver is applied to one row without columns.  In
    both cases the outcome is what the solver answers. *)
Theorem process_standalone_segment
    (disloc : Numpy.ndarray -> list (list R) -> R -> Z -> result (list (R * R * R)))
    (s : OkadaSegment.t) (p : OkadaPath.t) (coords : list (list R)) (nthreads : Z) :
  OkadaSegment.is_enabled s = false ->
  OkadaPath.segments p = [s] ->
  DislocProcessor.process disloc [Segment s] coords nthreads
  = (solver_outcome
       (disloc (Numpy.Arr2 [OkadaSegment.dislocSource s]) coords
          (OkadaSource.nu (OkadaSegment.base s)) nthreads),
     [ {| DislocProcessor.call_src_arr := Numpy.Arr2 [OkadaSegment.dislocSource s];
          DislocProcessor.call_coords := coords;
          DislocProcessor.call_nu := OkadaSource.nu (OkadaSegment.base s);
          DislocProcessor.call_nthreads := nthreads |} ])
  /\ DislocProcessor.process disloc [Path p] coords nthreads
     = (solver_outcome (disloc (Numpy.Arr2 [[]]) coords (OkadaPath.nu p) nthreads),
        [ {| DislocProcessor.call_src_arr := Numpy.Arr2 [[]];
             DislocProcessor.call_coords := coords;
             DislocProcessor.call_nu := OkadaPath.nu p;
             DislocProcessor.call_nthreads := nthreads |} ]).
Proof.
  intros Hen Hp. split; [reflexivity |].
  unfold DislocProcessor.process. cbn. rewrite Hp. cbn. rewrite Hen. reflexivity.
Qed.

Lemma process_standalone_segment_witness :
  DislocProcessor.process echo_solver
    [Segment (OkadaSegment.setattr (fresh_segment 0 0 0 1) (OkadaSegment.Enabled (Some false)))]
    [[0; 0]] 0
  = (Ok {| DislocProcessor.processor_profile := [];
           DislocProcessor.north := [1.25];
           DislocProcessor.east := [1];
           DislocProcessor.down := [0] |},
     [ {| DislocProcessor.call_src_arr :=
            Numpy.Arr2 [OkadaSegment.dislocSource
                          (OkadaSegment.setattr (fresh_segment 0 0 0 1)
                             (OkadaSegment.Enabled (Some false)))];
          DislocProcessor.call_coords := [[0; 0]];
          DislocProcessor.call_nu := 1.25;
          DislocProcessor.call_nthreads := 0 |} ]).
Proof.
  destruct (process_standalone_segment echo_solver
              (OkadaSegment.setattr (fresh_segment 0 0 0 1) (OkadaSegment.Enabled (Some false)))
              disabled_path [[0; 0]] 0) as (Hseg & _).
  - reflexivity.
  - now rewrite disabled_path_eq.
  - rewrite Hseg. reflexivity.
Defined.

(** [insertNode] always inserts the node, whether it returns or raises
    afterwards, at the clamped position [list.insert] gives it.  The segments
    that were there stay in their places with their flag and non-geometry
    attributes; at most one segment is added, at the end. *)
Theorem insertNode_always_inserts (pos : Z) (e n : R) (p : OkadaPath.t) :
  let p' := (OkadaPath.insertNode pos e n p).2 in
  OkadaPath.nodes p' = PyList.insert (OkadaPath.nodes p) pos (e, n)
  /\ List.length (OkadaPath.nodes p') = S (List.length (OkadaPath.nodes p))
  /\ take (List.length (OkadaPath.segments p)) (map kinematics (OkadaPath.segments p'))
     = map kinematics (OkadaPath.segments p)
  /\ (List.length (OkadaPath.segments p') <= S (List.length (OkadaPath.segments p)))%nat.
Proof.
  assert (Hid : take (List.length (OkadaPath.segments p)) (map kinematics (OkadaPath.segments p))
                = map kinematics (OkadaPath.segments p)).
  { apply take_ge. now rewrite length_map. }
  unfold OkadaPath.insertNode. unfold_M.
  cbn [OkadaPath.nodes OkadaPath.segments OkadaPath.nu OkadaPath.origin_easting
       OkadaPath.origin_northing fst snd].
  repeat match goal with
    | |- context [match PyList.getitem ?l ?i with _ => _ end] =>
        destruct (PyList.getitem l i)
    | |- context [match OkadaPath._newSegment ?a ?b ?c ?d ?k with _ => _ end] =>
        destruct (OkadaPath._newSegment a b c d k)
    end;
    cbn [OkadaPath.nodes OkadaPath.segments OkadaPath.nu OkadaPath.origin_easting
         OkadaPath.origin_northing fst snd];
    try (rewrite insert_length; repeat split; try reflexivity; try exact Hid; lia).
  all: try (unfold PyList.append; rewrite insert_length, map_app, length_app;
            repeat split; try reflexivity; try (cbn; lia);
            rewrite take_app_length'; [reflexivity | now rewrite length_map]).
  match goal with
  | |- context [OkadaPath._moveSegment ?i ?a ?b ?c ?d ?q] =>
      destruct (OkadaPath._moveSegment i a b c d q) as [r p'] eqn:Hm
  end.
  apply moveSegment_kinematics in Hm. destruct Hm as [Hq Hk].
  cbn [with_segments OkadaPath.nodes OkadaPath.segments] in Hq, Hk.
  pose proof (f_equal (@List.length _) Hk) as Hlen. rewrite !length_map in Hlen.
  rewrite Hq. cbn [with_segments OkadaPath.nodes OkadaPath.segments fst snd].
  rewrite Hk, Hlen. unfold PyList.append.
  rewrite insert_length, map_app, length_app.
  repeat split; try reflexivity; try (cbn; lia).
  rewrite take_app_length'; [reflexivity | now rewrite length_map].
Qed.

(** ** [meta.py]: the cached property *)

Lemma var_name_inj (n1 n2 : string) : Meta.var_name n1 = Meta.var_name n2 -> n1 = n2.
Proof. unfold Meta.var_name. cbn. intros [= H]. exact H. Qed.

(** Reading a cached property after a value other than [None] was
    assigned to it returns that value and leaves the instance as it is; the
    decorated method plays no part, whatever it would do. *)
Theorem cached_set_then_get {V : Type}
    (func : Meta.instance -> result (option V) * Meta.instance)
    (name : string) (self : Meta.instance) (v : V) :
  Meta.cache_return func name (Meta.cache_return_setter name self (Some v))
  = (Ok (Some v), Meta.cache_return_setter name self (Some v)).
Proof.
  unfold Meta.cache_return, Meta.cache_return_setter, Meta.dict_get, Meta.instance in *.
  now rewrite lookup_insert_eq.
Qed.

(** Once a read of a cached property has returned a value other than
    [None], every further read returns the same value without running the
    method and without changing the instance. *)
Theorem cached_get_is_stable {V : Type}
    (func g : Meta.instance -> result (option V) * Meta.instance)
    (name : string) (self self1 : Meta.instance) (v : V) :
  Meta.cache_return func name self = (Ok (Some v), self1) ->
  Meta.cache_return g name self1 = (Ok (Some v), self1).
Proof.
  unfold Meta.cache_return, Meta.dict_get, Meta.instance in *.
  destruct (default None (self !! Meta.var_name name)) as [w |] eqn:Hget.
  - intros [= -> <-]. now rewrite Hget.
  - destruct (func self) as [[u | ex] self']; [| discriminate].
    rewrite lookup_insert_eq. cbn. intros [= -> <-].
    now rewrite lookup_insert_eq.
Qed.

Lemma cached_get_is_stable_witness :
  Meta.cache_return (fun d : Meta.instance => (Raise ValueError, d)) "quadtree"
    (<[Meta.var_name "quadtree" := Some 7%nat]> ∅)
  = (Ok (Some 7%nat), <[Meta.var_name "quadtree" := Some 7%nat]> ∅).
Proof.
  apply (cached_get_is_stable (fun d => (Ok (Some 7%nat), d)) _ "quadtree" ∅).
  reflexivity.
Defined.

(** [None] is never a cache hit: when a read returned [None], the next read
    runs the method again and stores what it returns. *)
Theorem cached_none_is_recomputed {V : Type}
    (func g : Meta.instance -> result (option V) * Meta.instance)
    (name : string) (self self1 : Meta.instance) :
  Meta.cache_return func name self = (Ok None, self1) ->
  Meta.cache_return g name self1
  = match g self1 with
    | (Ok v, self2) => (Ok v, <[Meta.var_name name := v]> self2)
    | (Raise e, self2) => (Raise e, self2)
    end.
Proof.
  unfold Meta.cache_return, Meta.dict_get, Meta.instance in *.
  destruct (default None (self !! Meta.var_name name)) as [w |] eqn:Hget.
  - intros [= H].
  - destruct (func self) as [[u | ex] self']; [| discriminate].
    rewrite lookup_insert_eq. cbn. intros [= -> <-].
    rewrite lookup_insert_eq. cbn.
    destruct (g _) as [[v | ex] self2]; [| reflexivity].
    now rewrite lookup_insert_eq.
Qed.

Lemma cached_none_is_recomputed_witness :
  Meta.cache_return (fun d : Meta.instance => (Ok (Some 3%nat), d)) "plot"
    (<[Meta.var_name "plot" := None]> ∅)
  = (Ok (Some 3%nat), <[Meta.var_name "plot" := Some 3%nat]> (<[Meta.var_name "plot" := None]> ∅)).
Proof.
  rewrite (cached_none_is_recomputed (fun d => (Ok None, d)) _ "plot" ∅); reflexivity.
Defined.

(** Cached properties of different methods do not share a slot: assigning
    to one leaves a cached value of another in place, and a read of the
    other still returns it. *)
Theorem cached_properties_independent {V : Type}
    (func : Meta.instance -> result (option V) * Meta.instance)
    (name other : string) (self : Meta.instance) (v : V) (value : option V) :
  name <> other ->
  Meta.dict_get self (Meta.var_name name) = Some v ->
  Meta.cache_return func name (Meta.cache_return_setter other self value)
  = (Ok (Some v), Meta.cache_return_setter other self value).
Proof.
  intros Hne Hget.
  unfold Meta.cache_return, Meta.cache_return_setter, Meta.dict_get, Meta.instance in *.
  rewrite lookup_insert_ne by (intros H; apply var_name_inj in H; congruence).
  now rewrite Hget.
Qed.

Lemma cached_properties_independent_witness :
  Meta.cache_return (fun d : Meta.instance => (Raise ValueError, d)) "X"
    (Meta.cache_return_setter "Y" (<[Meta.var_name "X" := Some 1%nat]> ∅) None)
  = (Ok (Some 1%nat),
     Meta.cache_return_setter "Y" (<[Meta.var_name "X" := Some 1%nat]> ∅) None).
Proof.
  apply cached_properties_independent; [discriminate | reflexivity].
Defined.

(** ** [meta.py]: the observer *)

Lemma remove_not_in {A} `{EqDecision A} (l : list A) (x : A) :
  x ∉ l -> PyList.remove l x = Raise ValueError.
Proof.
  induction l as [| y l IH]; [reflexivity |].
  intros Hx. apply not_elem_of_cons in Hx. destruct Hx as [Hne Hx].
  cbn. case_decide; [congruence |]. now rewrite IH.
Qed.

Lemma remove_first {A} `{EqDecision A} (l1 l2 : list A) (x : A) :
  x ∉ l1 -> PyList.remove (l1 ++ x :: l2) x = Ok (l1 ++ l2).
Proof.
  induction l1 as [| y l1 IH]; intros Hx.
  - cbn. case_decide; [reflexivity | congruence].
  - apply not_elem_of_cons in Hx. destruct Hx as [Hne Hx].
    cbn. case_decide; [congruence |]. now rewrite IH.
Qed.

(** [unsubscribe] raises only [ValueError], and only for a listener that
    is not subscribed; otherwise it removes the earliest subscription of that
    listener and nothing else, so a listener subscribed twice stays
    subscribed once. *)
Theorem unsubscribe_removes_first {L : Type} `{EqDecision L} (ls : list L) (l : L) :
  match Meta.unsubscribe ls l with
  | Raise e => e = ValueError /\ (l ∉ ls)
  | Ok ls' =>
      exists before after,
        ls = before ++ l :: after /\ (l ∉ before) /\ ls' = before ++ after
  end.
Proof.
  unfold Meta.unsubscribe.
  destruct (decide (l ∈ ls)) as [Hin | Hnot].
  - apply list_elem_of_split_l in Hin.
    destruct Hin as (before & after & -> & Hnot).
    rewrite remove_first by exact Hnot. now exists before, after.
  - now rewrite remove_not_in.
Qed.

(** Subscribing a listener and unsubscribing it again never raises.  It
    gives back the list of listeners when the listener was not subscribed
    before; when it was, the earlier subscription is the one removed, so the
    listener moves to the end of the list. *)
Theorem subscribe_then_unsubscribe {L : Type} `{EqDecision L} (ls : list L) (l : L) :
  ((l ∉ ls) -> Meta.unsubscribe (Meta.subscribe ls l) l = Ok ls)
  /\ (forall before after,
        ls = before ++ l :: after -> (l ∉ before) ->
        Meta.unsubscribe (Meta.subscribe ls l) l = Ok (before ++ after ++ [l])).
Proof.
  unfold Meta.unsubscribe, Meta.subscribe, PyList.append. split.
  - intros Hnot. rewrite <- (app_nil_r ls) at 2. now apply remove_first.
  - intros before after -> Hnot. rewrite <- app_assoc. cbn [app].
    now apply remove_first.
Qed.

(** A newly subscribed listener is called last, and only when every
    listener subscribed before it returned: notifying after [subscribe] is
    notifying the old listeners and then, unless one of them raised, calling
    the new one. *)
Theorem notify_after_subscribe {L W : Type}
    (call : L -> W -> result unit * W) (ls : list L) (l : L) (w : W) :
  Meta._notify call (Meta.subscribe ls l) w
  = match Meta._notify call ls w with
    | (Ok _, w') =>
        match call l w' with
        | (Ok _, w'') => (Ok tt, w'')
        | (Raise e, w'') => (Raise e, w'')
        end
    | (Raise e, w') => (Raise e, w')
    end.
Proof.
  unfold Meta.subscribe, PyList.append. revert w.
  induction ls as [| x ls IH]; intros w; cbn.
  - destruct (call l w) as [[[] | e] w']; reflexivity.
  - destruct (call x w) as [[[] | e] w']; [apply IH | reflexivity].
Qed.
